(** * Player Action Tracker: the client-side state synchronisation of [src/App.tsx]

    A shallow embedding of the [App] component: its seven [useState] cells,
    its two effects, the three [async] functions [fetchPlayers],
    [fetchActions] and [handleSubmitAction], and the scheduling React and the
    browser give them (a handler or a continuation runs to its next [await],
    then the component re-renders and the selection effect re-runs when one
    of its dependencies changed). *)

From Stdlib Require Import List String Ascii ZArith NArith Bool Lia.
Import ListNotations.
Local Open Scope list_scope.

(** ** Strings

    A JavaScript string is a sequence of UTF-16 code units.  [str] reads a
    literal of the source. *)

Definition jsstring : Type := list N.

Definition str (s : string) : jsstring :=
  map N_of_ascii (list_ascii_of_string s).

Arguments str s : simpl never.

Definition jsstring_dec (a b : jsstring) : {a = b} + {a <> b} :=
  list_eq_dec N.eq_dec a b.

(** [a === b] on strings. *)
Definition strict_eq (a b : jsstring) : bool :=
  if jsstring_dec a b then true else false.

(** A string in a condition: the empty string is the only falsy one. *)
Definition truthy (s : jsstring) : bool :=
  match s with
  | [] => false
  | _ :: _ => true
  end.

(** The code units [String.prototype.trim] strips: ECMAScript's WhiteSpace
    (TAB, VT, FF, SP, NBSP, ZWNBSP and the Unicode space separators) and
    LineTerminator (LF, CR, LS, PS). *)
Definition isWhiteSpace (c : N) : bool :=
  (existsb (N.eqb c) [9; 10; 11; 12; 13; 32; 160; 5760; 8232; 8233; 8239; 8287; 12288; 65279]
   || (N.leb 8192 c && N.leb c 8202))%bool%N.

Fixpoint trimStart (s : jsstring) : jsstring :=
  match s with
  | [] => []
  | c :: rest => if isWhiteSpace c then trimStart rest else s
  end.

Definition trimEnd (s : jsstring) : jsstring := rev (trimStart (rev s)).

Definition trim (s : jsstring) : jsstring := trimEnd (trimStart s).

(** Blank text: empty, or white space only. *)
Definition blank (s : jsstring) : bool := forallb isWhiteSpace s.

(** ** Data model (the two interfaces of the source) *)

Record Player : Type := mkPlayer {
  id : jsstring;
  name : jsstring;
  hp : Z;
  strength : Z;
  dexterity : Z;
  intelligence : Z;
  gold : Z
}.

Record PlayerAction : Type := mkPlayerAction {
  action_id : jsstring;
  player_id : jsstring;
  action_text : jsstring;
  turn_number : Z;
  created_at : option jsstring
}.

(** The object [handleSubmitAction] hands to [JSON.stringify]. *)
Record NewAction : Type := mkNewAction {
  new_player_id : jsstring;
  new_action_text : jsstring;
  new_turn_number : Z
}.

(** The seven [useState] cells of [App]. *)
Record AppState : Type := mkAppState {
  players : list Player;
  selectedPlayerId : jsstring;
  selectedPlayer : option Player;
  actions : list PlayerAction;
  newActionText : jsstring;
  loading : bool;
  error : option jsstring
}.

(** The arguments of [useState]. *)
Definition initialState : AppState :=
  {| players := [];
     selectedPlayerId := [];
     selectedPlayer := None;
     actions := [];
     newActionText := [];
     loading := false;
     error := None |}.

(** ** The remote resource *)

Inductive Request : Type :=
| GetPlayers
| GetActions (playerId : jsstring)
| PostAction (body : NewAction).

(** The first argument of each [fetch], for a base [API_URL]. *)
Definition url (API_URL : jsstring) (req : Request) : jsstring :=
  match req with
  | GetPlayers => API_URL ++ str "?resource=players"
  | GetActions playerId => API_URL ++ str "?resource=actions&player_id=" ++ playerId
  | PostAction _ => API_URL ++ str "?resource=actions"
  end.

(** A thrown value: an [Error] with its [message], or anything else. *)
Inductive Thrown : Type :=
| ErrorObject (message : jsstring)
| NonError.

(** What [response.json()] resolves to, read at the row type the source
    gives it.  Only [JArray] passes [Array.isArray]. *)
Inductive Json (A : Type) : Type :=
| JArray (items : list A)
| JNull
| JBool (b : bool)
| JNumber (n : Z)
| JString (s : jsstring)
| JObject.

Arguments JArray {A} items.
Arguments JNull {A}.
Arguments JBool {A} b.
Arguments JNumber {A} n.
Arguments JString {A} s.
Arguments JObject {A}.

Definition Array_isArray {A : Type} (data : Json A) : bool :=
  match data with
  | JArray _ => true
  | _ => false
  end.

(** [data] used as an array.  The source does so only under
    [Array.isArray(data)]; no other value has elements. *)
Definition elements {A : Type} (data : Json A) : list A :=
  match data with
  | JArray items => items
  | _ => []
  end.

(** A response: its [ok] flag and what [json()] settles to (a rejection
    reason on the left). *)
Record Response (A : Type) : Type := mkResponse {
  ok : bool;
  json : Thrown + Json A
}.

Arguments mkResponse {A} ok json.
Arguments ok {A} r.
Arguments json {A} r.

(** How the promise of a [fetch] settles. *)
Inductive Settled (A : Type) : Type :=
| Fulfilled (response : Response A)
| Rejected (reason : Thrown).

Arguments Fulfilled {A} response.
Arguments Rejected {A} reason.

(** A request that fails: transport error or non-success status. *)
Definition request_failed {A : Type} (o : Settled A) : bool :=
  match o with
  | Fulfilled response => negb (ok response)
  | Rejected _ => true
  end.

(** ** Asynchronous programs

    The synchronous operations of the component (state setters and browser
    calls), and the programs built from them: a program runs until it
    returns, throws, or suspends on a [fetch] with the rest of the function
    as continuation.  The source reads state only through the values its
    closures captured at render time, so programs take those as arguments
    and have no read operation. *)

Inductive Op : Type :=
| setPlayers (v : list Player)
| setSelectedPlayerId (v : jsstring)
| setSelectedPlayer (v : option Player)
| setActions (v : list PlayerAction)
| setNewActionText (v : jsstring)
| setLoading (v : bool)
| setError (v : option jsstring)
| alert (message : jsstring)
| console_error (label : jsstring) (err : Thrown)
| preventDefault.

Inductive Async : Type :=
| Return
| Throw (e : Thrown)
| Do (op : Op) (k : Async)
| AwaitPlayers (k : Settled Player -> Async)
| AwaitActions (playerId : jsstring) (k : Settled PlayerAction -> Async)
| AwaitPost (body : NewAction) (k : Settled PlayerAction -> Async)
| Call (callee : Async) (k : Async).

Notation "op ;; k" := (Do op k) (at level 61, right associativity).

(** [try { body } catch (err) { handler err }] *)
Fixpoint try_catch (body : Async) (handler : Thrown -> Async) : Async :=
  match body with
  | Return => Return
  | Throw e => handler e
  | Do op k => Do op (try_catch k handler)
  | AwaitPlayers k => AwaitPlayers (fun o => try_catch (k o) handler)
  | AwaitActions playerId k => AwaitActions playerId (fun o => try_catch (k o) handler)
  | AwaitPost body' k => AwaitPost body' (fun o => try_catch (k o) handler)
  | Call callee k => Call callee (try_catch k handler)
  end.

(** [p] then [q], unless [p] throws. *)
Fixpoint seq (p q : Async) : Async :=
  match p with
  | Return => q
  | Throw e => Throw e
  | Do op k => Do op (seq k q)
  | AwaitPlayers k => AwaitPlayers (fun o => seq (k o) q)
  | AwaitActions playerId k => AwaitActions playerId (fun o => seq (k o) q)
  | AwaitPost body' k => AwaitPost body' (fun o => seq (k o) q)
  | Call callee k => Call callee (seq k q)
  end.

(** [try { body } finally { cleanup }] *)
Fixpoint try_finally (body cleanup : Async) : Async :=
  match body with
  | Return => cleanup
  | Throw e => seq cleanup (Throw e)
  | Do op k => Do op (try_finally k cleanup)
  | AwaitPlayers k => AwaitPlayers (fun o => try_finally (k o) cleanup)
  | AwaitActions playerId k => AwaitActions playerId (fun o => try_finally (k o) cleanup)
  | AwaitPost body' k => AwaitPost body' (fun o => try_finally (k o) cleanup)
  | Call callee k => Call callee (try_finally k cleanup)
  end.

(** [const response = await fetch(...)]: a rejected promise throws at the
    [await]. *)
Definition awaited {A : Type} (k : Response A -> Async) (o : Settled A) : Async :=
  match o with
  | Fulfilled response => k response
  | Rejected reason => Throw reason
  end.

(** [const data = await response.json()].  Nothing reads or writes state
    between the two awaits of a fetch, so the body travels with the
    response. *)
Definition await_json {A : Type} (response : Response A) (k : Json A -> Async) : Async :=
  match json response with
  | inr data => k data
  | inl reason => Throw reason
  end.

(** [err instanceof Error ? err.message : fallback] *)
Definition message_or (err : Thrown) (fallback : jsstring) : jsstring :=
  match err with
  | ErrorObject message => message
  | NonError => fallback
  end.

(** ** The functions of [App] *)

Definition fetchPlayers : Async :=
  try_finally
    (try_catch
       (setLoading true ;;
        AwaitPlayers (awaited (fun response =>
          if negb (ok response) then Throw (ErrorObject (str "Failed to fetch players"))
          else await_json response (fun data =>
            setPlayers (if Array_isArray data then elements data else []) ;;
            Return))))
       (fun err =>
          setError (Some (message_or err (str "Unknown error"))) ;;
          Return))
    (setLoading false ;; Return).

Definition fetchActions (playerId : jsstring) : Async :=
  try_catch
    (AwaitActions playerId (awaited (fun response =>
       if negb (ok response) then Throw (ErrorObject (str "Failed to fetch actions"))
       else await_json response (fun data =>
         setActions (if Array_isArray data then elements data else []) ;;
         Return))))
    (fun err =>
       console_error (str "Error fetching actions:") err ;;
       Return).

(** The handler closes over [selectedPlayerId], [newActionText] and
    [actions] of the render that created it. *)
Definition handleSubmitAction (s : AppState) : Async :=
  preventDefault ;;
  if (negb (truthy (selectedPlayerId s)) || negb (truthy (trim (newActionText s))))%bool
  then Return
  else
    let nextTurn := (Z.of_nat (List.length (actions s)) + 1)%Z in
    try_catch
      (AwaitPost
         {| new_player_id := selectedPlayerId s;
            new_action_text := newActionText s;
            new_turn_number := nextTurn |}
         (awaited (fun response =>
            if negb (ok response) then Throw (ErrorObject (str "Failed to submit action"))
            else
              setNewActionText [] ;;
              Call (fetchActions (selectedPlayerId s))
              Return)))
      (fun err =>
         alert (message_or err (str "Failed to submit action")) ;;
         Return).

(** [players.find(p => p.id === selectedPlayerId) || null] *)
Definition find_player (value : jsstring) (ps : list Player) : option Player :=
  find (fun p => strict_eq (id p) value) ps.

(** The first effect, [useEffect(() => { fetchPlayers(); }, [])]. *)
Definition loadEffect : Async :=
  Call fetchPlayers Return.

(** The second effect, with dependencies [[selectedPlayerId, players]]. *)
Definition selectionEffect (s : AppState) : Async :=
  if truthy (selectedPlayerId s) then
    let player := find_player (selectedPlayerId s) (players s) in
    setSelectedPlayer player ;;
    Call (fetchActions (selectedPlayerId s))
    Return
  else
    setSelectedPlayer None ;;
    setActions [] ;;
    Return.

(** [onChange] of the player select and of the action text area. *)
Definition onSelectChange (value : jsstring) : Async :=
  setSelectedPlayerId value ;; Return.

Definition onTextChange (value : jsstring) : Async :=
  setNewActionText value ;; Return.

(** ** The machine

    What a run of the component can observe and change: the state cells, the
    requests in flight (each with the continuation suspended on it) and the
    calls made to the outside.  [playersRef] is the identity of the array
    held in [players]: every [setPlayers] stores a fresh array, and the
    dependency check of [useEffect] compares identities. *)

Inductive Output : Type :=
| Fetch (req : Request)
| Alert (message : jsstring)
| ConsoleError (label : jsstring) (err : Thrown)
| PreventDefault
| UnhandledRejection (reason : Thrown).

Inductive Task : Type :=
| TaskPlayers (k : Settled Player -> Async)
| TaskActions (playerId : jsstring) (k : Settled PlayerAction -> Async)
| TaskPost (body : NewAction) (k : Settled PlayerAction -> Async).

Definition request_of (t : Task) : Request :=
  match t with
  | TaskPlayers _ => GetPlayers
  | TaskActions playerId _ => GetActions playerId
  | TaskPost body _ => PostAction body
  end.

Record Machine : Type := mkMachine {
  app : AppState;
  playersRef : nat;
  deps : jsstring * nat;
  pending : list Task;
  output : list Output
}.

Definition with_app (f : AppState -> AppState) (m : Machine) : Machine :=
  {| app := f (app m); playersRef := playersRef m; deps := deps m;
     pending := pending m; output := output m |}.

Definition emit (o : Output) (m : Machine) : Machine :=
  {| app := app m; playersRef := playersRef m; deps := deps m;
     pending := pending m; output := output m ++ [o] |}.

Definition suspend (t : Task) (m : Machine) : Machine :=
  {| app := app m; playersRef := playersRef m; deps := deps m;
     pending := pending m ++ [t]; output := output m ++ [Fetch (request_of t)] |}.

Definition fresh_players (m : Machine) : Machine :=
  {| app := app m; playersRef := S (playersRef m); deps := deps m;
     pending := pending m; output := output m |}.

Definition apply_op (op : Op) (m : Machine) : Machine :=
  match op with
  | setPlayers v =>
      fresh_players (with_app (fun s =>
        mkAppState v (selectedPlayerId s) (selectedPlayer s) (actions s)
                   (newActionText s) (loading s) (error s)) m)
  | setSelectedPlayerId v =>
      with_app (fun s =>
        mkAppState (players s) v (selectedPlayer s) (actions s)
                   (newActionText s) (loading s) (error s)) m
  | setSelectedPlayer v =>
      with_app (fun s =>
        mkAppState (players s) (selectedPlayerId s) v (actions s)
                   (newActionText s) (loading s) (error s)) m
  | setActions v =>
      with_app (fun s =>
        mkAppState (players s) (selectedPlayerId s) (selectedPlayer s) v
                   (newActionText s) (loading s) (error s)) m
  | setNewActionText v =>
      with_app (fun s =>
        mkAppState (players s) (selectedPlayerId s) (selectedPlayer s) (actions s)
                   v (loading s) (error s)) m
  | setLoading v =>
      with_app (fun s =>
        mkAppState (players s) (selectedPlayerId s) (selectedPlayer s) (actions s)
                   (newActionText s) v (error s)) m
  | setError v =>
      with_app (fun s =>
        mkAppState (players s) (selectedPlayerId s) (selectedPlayer s) (actions s)
                   (newActionText s) (loading s) v) m
  | alert message => emit (Alert message) m
  | console_error label err => emit (ConsoleError label err) m
  | preventDefault => emit PreventDefault m
  end.

(** Run a program to its end or to its next [await].  A call that is not
    awaited runs the callee to its first [await] and goes on; a throw that
    nothing catches rejects the promise of the function. *)
Fixpoint exec (p : Async) (m : Machine) : Machine :=
  match p with
  | Return => m
  | Throw e => emit (UnhandledRejection e) m
  | Do op k => exec k (apply_op op m)
  | AwaitPlayers k => suspend (TaskPlayers k) m
  | AwaitActions playerId k => suspend (TaskActions playerId k) m
  | AwaitPost body k => suspend (TaskPost body k) m
  | Call callee k => exec k (exec callee m)
  end.

Definition deps_eqb (a b : jsstring * nat) : bool :=
  (strict_eq (fst a) (fst b) && Nat.eqb (snd a) (snd b))%bool.

Definition current_deps (m : Machine) : jsstring * nat :=
  (selectedPlayerId (app m), playersRef m).

Definition seen (d : jsstring * nat) (m : Machine) : Machine :=
  {| app := app m; playersRef := playersRef m; deps := d;
     pending := pending m; output := output m |}.

(** Re-render: the selection effect runs again when [selectedPlayerId] or
    the [players] array differs from what its last run saw.  The effect
    sets neither, so the render it causes runs nothing more. *)
Definition render (m : Machine) : Machine :=
  if deps_eqb (current_deps m) (deps m) then m
  else exec (selectionEffect (app m)) (seen (current_deps m) m).

(** First render: both effects run, in the order of the source. *)
Definition unmounted : Machine :=
  {| app := initialState; playersRef := 0; deps := ([], 0);
     pending := []; output := [] |}.

Definition mount : Machine :=
  render (exec (selectionEffect initialState) (exec loadEffect unmounted)).

(** What happens to the mounted component: the user changes the select or
    the text area or submits the form, or the [i]-th request in flight
    settles. *)
Inductive Event : Type :=
| SelectChange (value : jsstring)
| TextChange (value : jsstring)
| SubmitForm
| PlayersSettled (i : nat) (o : Settled Player)
| ActionsSettled (i : nat) (o : Settled PlayerAction)
| PostSettled (i : nat) (o : Settled PlayerAction).

Definition drop_pending (i : nat) (m : Machine) : Machine :=
  {| app := app m; playersRef := playersRef m; deps := deps m;
     pending := firstn i (pending m) ++ skipn (S i) (pending m);
     output := output m |}.

(** The handler or continuation an event runs, up to its next [await]. *)
Definition handle (m : Machine) (e : Event) : Machine :=
  match e with
  | SelectChange value => exec (onSelectChange value) m
  | TextChange value => exec (onTextChange value) m
  | SubmitForm => exec (handleSubmitAction (app m)) m
  | PlayersSettled i o =>
      match nth_error (pending m) i with
      | Some (TaskPlayers k) => exec (k o) (drop_pending i m)
      | _ => m
      end
  | ActionsSettled i o =>
      match nth_error (pending m) i with
      | Some (TaskActions _ k) => exec (k o) (drop_pending i m)
      | _ => m
      end
  | PostSettled i o =>
      match nth_error (pending m) i with
      | Some (TaskPost _ k) => exec (k o) (drop_pending i m)
      | _ => m
      end
  end.

Definition step (m : Machine) (e : Event) : Machine :=
  render (handle m e).

Definition run (events : list Event) : Machine :=
  fold_left step events mount.

(** What the markup lets happen: the select is disabled while [loading] and
    offers the placeholder and the ids of [players]; the form exists only
    while a player snapshot is shown, and its text area is [required]; a
    request settles only while it is in flight. *)
Definition enabled (m : Machine) (e : Event) : bool :=
  match e with
  | SelectChange value =>
      (negb (loading (app m))
       && (negb (truthy value) || existsb (fun p => strict_eq (id p) value) (players (app m))))%bool
  | TextChange _ =>
      match selectedPlayer (app m) with Some _ => true | None => false end
  | SubmitForm =>
      match selectedPlayer (app m) with
      | Some _ => truthy (newActionText (app m))
      | None => false
      end
  | PlayersSettled i _ =>
      match nth_error (pending m) i with Some (TaskPlayers _) => true | _ => false end
  | ActionsSettled i _ =>
      match nth_error (pending m) i with Some (TaskActions _ _) => true | _ => false end
  | PostSettled i _ =>
      match nth_error (pending m) i with Some (TaskPost _ _) => true | _ => false end
  end.

Fixpoint all_enabled (m : Machine) (events : list Event) : bool :=
  match events with
  | [] => true
  | e :: rest => (enabled m e && all_enabled (step m e) rest)%bool
  end.

(** The task a program leaves in flight at its first [await]. *)
Fixpoint first_await (p : Async) : option Task :=
  match p with
  | Return => None
  | Throw _ => None
  | Do _ k => first_await k
  | AwaitPlayers k => Some (TaskPlayers k)
  | AwaitActions playerId k => Some (TaskActions playerId k)
  | AwaitPost body k => Some (TaskPost body k)
  | Call callee k =>
      match first_await callee with
      | Some t => Some t
      | None => first_await k
      end
  end.

(** The tasks the component ever leaves in flight: a suspended
    [fetchPlayers], [fetchActions] or [handleSubmitAction]. *)
Definition known (t : Task) : Prop :=
  first_await fetchPlayers = Some t
  \/ (exists playerId, first_await (fetchActions playerId) = Some t)
  \/ (exists s, first_await (handleSubmitAction s) = Some t).

(** A machine as a render leaves it. *)
Definition stable (m : Machine) : Prop := deps m = current_deps m.

(** The snapshot the selection effect derives from a state. *)
Definition derived_player (s : AppState) : option Player :=
  selectedPlayer (app (exec (selectionEffect s) unmounted)).

(** What one handler or continuation may leave of the selection and the
    player list: the snapshot is not written; the selected id changes only
    by the select; the player array is kept, or replaced by a fresh one. *)
Definition footprint (m m1 : Machine) (e : Event) : Prop :=
  deps m1 = deps m
  /\ selectedPlayer (app m1) = selectedPlayer (app m)
  /\ selectedPlayerId (app m1) =
       match e with
       | SelectChange value => value
       | _ => selectedPlayerId (app m)
       end
  /\ ((playersRef m1 = playersRef m /\ players (app m1) = players (app m))
       \/ playersRef m1 = S (playersRef m)).

(** What every reachable machine satisfies. *)
Definition invariant (m : Machine) : Prop :=
  stable m
  /\ Forall known (pending m)
  /\ selectedPlayer (app m) = derived_player (app m).

(** The value a failed request throws at its [await]: the rejection reason
    of the transport, or the [Error] the source builds for a non-success
    status. *)
Definition thrown_by {A : Type} (o : Settled A) (status_message : jsstring) : Thrown :=
  match o with
  | Rejected reason => reason
  | Fulfilled _ => ErrorObject status_message
  end.

(** A success response carrying [data]. *)
Definition ok_with {A : Type} (data : Json A) : Settled A :=
  Fulfilled (mkResponse true (inr data)).

(** An output other than a fetch of the player list or a rejection nobody
    handles. *)
Definition routine (o : Output) : bool :=
  match o with
  | Fetch GetPlayers => false
  | UnhandledRejection _ => false
  | _ => true
  end.

(** ** A session to run things on *)

Definition rogue : Player :=
  mkPlayer (str "p1") (str "Rogue") 10 5 8 4 20.

Definition bard : Player :=
  mkPlayer (str "p2") (str "Bard") 8 3 6 9 35.

Definition pick_lock : PlayerAction :=
  mkPlayerAction (str "a1") (str "p1") (str "Pick the lock") 1 None.

(** The players load, the user selects the rogue, whose log of one action
    loads. *)
Definition rogue_session : list Event :=
  [ PlayersSettled 0 (ok_with (JArray [rogue; bard]));
    SelectChange (str "p1");
    ActionsSettled 0 (ok_with (JArray [pick_lock])) ].

(** [answered events playerId items]: somewhere in [events], a request for
    the action log of [playerId] in flight was answered with the array
    [items]. *)
Definition answered (events : list Event) (playerId : jsstring)
    (items : list PlayerAction) : Prop :=
  exists before i k after,
    events = before ++ ActionsSettled i (ok_with (JArray items)) :: after
    /\ nth_error (pending (run before)) i = Some (TaskActions playerId k).

(** ** What is displayed

    The markup [App] returns, without its styling: the error line, the
    player select, and, while a snapshot is held, the stats, the action
    list and the form. *)

Record OptionView : Type := mkOptionView {
  option_value : jsstring;
  option_label : jsstring
}.

Inductive ListItem : Type :=
| NoActionsRecorded
| TurnItem (key : jsstring) (turn : Z) (text : jsstring).

Record DetailsView : Type := mkDetailsView {
  stats_name : jsstring;
  stats_hp : Z;
  stats_str : Z;
  stats_dex : Z;
  stats_int : Z;
  stats_gold : Z;
  actions_list : list ListItem;
  textarea_value : jsstring
}.

Record View : Type := mkView {
  error_line : option jsstring;
  select_value : jsstring;
  select_disabled : bool;
  select_options : list OptionView;
  details : option DetailsView
}.

Definition view (s : AppState) : View :=
  {| error_line :=
       match error s with
       | Some message => if truthy message then Some message else None
       | None => None
       end;
     select_value := selectedPlayerId s;
     select_disabled := loading s;
     select_options :=
       mkOptionView [] (str "-- Choose a Player --")
       :: map (fun player => mkOptionView (id player) (name player)) (players s);
     details :=
       match selectedPlayer s with
       | Some player =>
           Some {| stats_name := name player;
                   stats_hp := hp player;
                   stats_str := strength player;
                   stats_dex := dexterity player;
                   stats_int := intelligence player;
                   stats_gold := gold player;
                   actions_list :=
                     if Nat.eqb (List.length (actions s)) 0 then [NoActionsRecorded]
                     else map (fun action =>
                                 TurnItem (action_id action) (turn_number action)
                                          (action_text action))
                              (actions s);
                   textarea_value := newActionText s |}
       | None => None
       end |}.

(** ** Bookkeeping for the properties of whole runs *)

Definition is_players_task (t : Task) : bool :=
  match t with
  | TaskPlayers _ => true
  | _ => false
  end.

(** How many player-list requests are in flight. *)
Definition players_in_flight (m : Machine) : nat :=
  List.length (filter is_players_task (pending m)).

(** An event that settles a player-list request in flight. *)
Definition settles_players (m : Machine) (e : Event) : bool :=
  match e with
  | PlayersSettled i _ =>
      match nth_error (pending m) i with
      | Some t => is_players_task t
      | None => false
      end
  | _ => false
  end.

(** The player list is loading (its one request in flight, the flag up,
    nothing stored yet), or it has settled for good. *)
Definition load_phase (m : Machine) : Prop :=
  (players_in_flight m = 1 /\ loading (app m) = true
   /\ players (app m) = [] /\ error (app m) = None)
  \/ (players_in_flight m = 0 /\ loading (app m) = false).

(** What the user does, as opposed to a request settling. *)
Definition user_event (e : Event) : bool :=
  match e with
  | SelectChange _ | TextChange _ | SubmitForm => true
  | _ => false
  end.

(** A request as the component means to send it: an action log is asked
    for a player id that is not empty, and an action is created for such
    an id, with text that is not blank and a positive turn number. *)
Definition meant_request (req : Request) : Prop :=
  match req with
  | GetPlayers => True
  | GetActions playerId => playerId <> []
  | PostAction body =>
      new_player_id body <> []
      /\ blank (new_action_text body) = false
      /\ (1 <= new_turn_number body)%Z
  end.

Definition meant_output (o : Output) : Prop :=
  match o with
  | Fetch req => meant_request req
  | _ => True
  end.

(** The bard's log, and a session in which the two logs race: the user
    selects the rogue and then the bard before any log has come, the
    bard's log comes first and the rogue's last. *)
Definition sing : PlayerAction :=
  mkPlayerAction (str "a2") (str "p2") (str "Sing a ballad") 1 None.

Definition racing_session : list Event :=
  [ PlayersSettled 0 (ok_with (JArray [rogue; bard]));
    SelectChange (str "p1");
    SelectChange (str "p2");
    ActionsSettled 1 (ok_with (JArray [sing])) ].

(** An event that does not write the log while an id stays selected:
    anything but an action-log answer whose body was parsed, or the choice
    of the empty id. *)
Definition leaves_log (e : Event) : bool :=
  match e with
  | SelectChange value => truthy value
  | ActionsSettled _ (Fulfilled response) =>
      (negb (ok response)
       || match json response with inl _ => true | inr _ => false end)%bool
  | _ => true
  end.

(** ** White space *)

Lemma trimStart_nil_blank (s : jsstring) :
  trimStart s = [] <-> blank s = true.
Proof.
  induction s as [|c s IH]; simpl.
  - split; reflexivity.
  - destruct (isWhiteSpace c); simpl.
    + exact IH.
    + split; discriminate.
Qed.

Lemma blank_rev (s : jsstring) : blank (rev s) = blank s.
Proof.
  unfold blank. induction s as [|c s IH]; simpl.
  - reflexivity.
  - rewrite forallb_app, IH. simpl. rewrite andb_true_r. apply andb_comm.
Qed.

Lemma trimStart_head (s : jsstring) :
  trimStart s = [] \/ exists c rest, trimStart s = c :: rest /\ isWhiteSpace c = false.
Proof.
  induction s as [|c s IH]; simpl.
  - left; reflexivity.
  - destruct (isWhiteSpace c) eqn:E.
    + exact IH.
    + right. exists c, s. split; [reflexivity | exact E].
Qed.

Lemma trim_nil_blank (s : jsstring) :
  trim s = [] <-> blank s = true.
Proof.
  unfold trim, trimEnd. split.
  - intros H.
    assert (B : blank (trimStart s) = true).
    { rewrite <- blank_rev. apply trimStart_nil_blank.
      destruct (trimStart (rev (trimStart s))) as [|x l] eqn:E; [reflexivity|].
      simpl in H. destruct (rev l); discriminate H. }
    destruct (trimStart_head s) as [E | (c & rest & E & W)].
    + apply trimStart_nil_blank. exact E.
    + rewrite E in B. simpl in B. rewrite W in B. discriminate B.
  - intros H. apply trimStart_nil_blank in H. rewrite H. reflexivity.
Qed.

Lemma truthy_trim (s : jsstring) : truthy (trim s) = negb (blank s).
Proof.
  destruct (blank s) eqn:B.
  - apply trim_nil_blank in B. rewrite B. reflexivity.
  - destruct (trim s) eqn:T; [|reflexivity].
    apply trim_nil_blank in T. congruence.
Qed.

Lemma nonblank_has_ink (s : jsstring) :
  existsb (fun c => negb (isWhiteSpace c)) s = negb (blank s).
Proof.
  unfold blank. induction s as [|c s IH]; simpl.
  - reflexivity.
  - rewrite IH. destruct (isWhiteSpace c); reflexivity.
Qed.

Lemma truthy_nonempty (s : jsstring) : truthy s = true <-> s <> [].
Proof.
  destruct s; simpl; split; congruence.
Qed.

Lemma strict_eq_true (a b : jsstring) : strict_eq a b = true <-> a = b.
Proof.
  unfold strict_eq. destruct (jsstring_dec a b); split; congruence.
Qed.

Lemma strict_eq_refl (a : jsstring) : strict_eq a a = true.
Proof. apply strict_eq_true. reflexivity. Qed.

Lemma deps_eqb_true (a b : jsstring * nat) : deps_eqb a b = true <-> a = b.
Proof.
  unfold deps_eqb. destruct a as [a1 a2], b as [b1 b2]. simpl.
  rewrite andb_true_iff, strict_eq_true, Nat.eqb_eq.
  split; [intros [-> ->]; reflexivity | intros H; inversion H; auto].
Qed.

(** ** What a program can touch *)

Lemma exec_deps (p : Async) : forall m, deps (exec p m) = deps m.
Proof.
  induction p as [| e | op k IH | k IH | playerId k IH | body k IH | callee IHc k IHk];
    intros m; simpl; try reflexivity.
  - rewrite IH. destruct op; reflexivity.
  - rewrite IHk. apply IHc.
Qed.

Lemma known_cases (t : Task) :
  known t ->
  first_await fetchPlayers = Some t
  \/ (exists playerId, first_await (fetchActions playerId) = Some t)
  \/ (exists s, truthy (selectedPlayerId s) = true /\ blank (newActionText s) = false
                /\ first_await (handleSubmitAction s) = Some t).
Proof.
  intros [H | [H | (s & H)]]; auto.
  right; right. exists s.
  unfold handleSubmitAction in H |- *. simpl in H |- *.
  rewrite truthy_trim in H |- *. rewrite negb_involutive in H |- *.
  destruct (truthy (selectedPlayerId s)), (blank (newActionText s));
    simpl in H |- *; try discriminate H; auto.
Qed.

Ltac known_inv H :=
  apply known_cases in H;
  destruct H as [H | [(?playerId & H) | (?s & ?Hsel & ?Htext & H)]];
  [ simpl in H
  | simpl in H
  | unfold handleSubmitAction in H; simpl in H;
    rewrite truthy_trim in H;
    match type of H with
    | context [truthy ?x] =>
        match goal with Hs : truthy x = true |- _ => rewrite Hs in H end
    end;
    match type of H with
    | context [blank ?x] =>
        match goal with Hb : blank x = false |- _ => rewrite Hb in H end
    end;
    simpl in H ];
  inversion H; subst; clear H.

Lemma known_dropped (i : nat) (t : Task) (l : list Task) :
  nth_error l i = Some t -> Forall known l ->
  known t /\ Forall known (firstn i l ++ skipn (S i) l).
Proof.
  intros Hn Hl. rewrite <- (firstn_skipn_middle i l Hn) in Hl.
  split.
  - exact (Forall_elt _ _ _ Hl).
  - apply Forall_app in Hl. destruct Hl as [H1 H2].
    apply Forall_app. split; [exact H1 | inversion H2; assumption].
Qed.

Lemma known_fetchActions (playerId : jsstring) (t : Task) :
  first_await (fetchActions playerId) = Some t -> known t.
Proof. intros H. right; left. exists playerId. exact H. Qed.

Ltac settle_cases o :=
  let ok' := fresh "ok" in
  let e := fresh "reason" in
  let data := fresh "data" in
  destruct o as [[ok' [e | data]] | e];
  [ destruct ok' | destruct ok'; [destruct data |] | ];
  simpl.

Lemma handle_known (m : Machine) (e : Event) :
  Forall known (pending m) -> Forall known (pending (handle m e)).
Proof.
  intros K. destruct e as [v | v | | i o | i o | i o]; simpl; try exact K.
  - rewrite truthy_trim.
    destruct (truthy (selectedPlayerId (app m))) eqn:Hs,
             (blank (newActionText (app m))) eqn:Hb; simpl; try exact K.
    apply Forall_app. split; [exact K|]. constructor; [|constructor].
    right; right. exists (app m). unfold handleSubmitAction. simpl.
    rewrite truthy_trim, Hs, Hb. reflexivity.
  - destruct (nth_error (pending m) i) as [t|] eqn:Hn; [|exact K].
    destruct (known_dropped _ _ _ Hn K) as [Kt Kd].
    destruct t; try exact K. known_inv Kt.
    settle_cases o; exact Kd.
  - destruct (nth_error (pending m) i) as [t|] eqn:Hn; [|exact K].
    destruct (known_dropped _ _ _ Hn K) as [Kt Kd].
    destruct t; try exact K. known_inv Kt.
    settle_cases o; exact Kd.
  - destruct (nth_error (pending m) i) as [t|] eqn:Hn; [|exact K].
    destruct (known_dropped _ _ _ Hn K) as [Kt Kd].
    destruct t; try exact K. known_inv Kt.
    settle_cases o; try exact Kd.
    all: apply Forall_app; split; [exact Kd|]; constructor; [|constructor];
      apply (known_fetchActions (selectedPlayerId s)); reflexivity.
Qed.

Lemma handle_footprint (m : Machine) (e : Event) :
  Forall known (pending m) -> footprint m (handle m e) e.
Proof.
  intros K. unfold footprint.
  destruct e as [v | v | | i o | i o | i o]; simpl; try (repeat split; auto; fail).
  - rewrite truthy_trim.
    destruct (truthy (selectedPlayerId (app m))), (blank (newActionText (app m)));
      simpl; repeat split; auto.
  - destruct (nth_error (pending m) i) as [t|] eqn:Hn; [|repeat split; auto].
    destruct (known_dropped _ _ _ Hn K) as [Kt Kd].
    destruct t; try (repeat split; auto; fail). known_inv Kt.
    settle_cases o; repeat split; auto.
  - destruct (nth_error (pending m) i) as [t|] eqn:Hn; [|repeat split; auto].
    destruct (known_dropped _ _ _ Hn K) as [Kt Kd].
    destruct t; try (repeat split; auto; fail). known_inv Kt.
    settle_cases o; repeat split; auto.
  - destruct (nth_error (pending m) i) as [t|] eqn:Hn; [|repeat split; auto].
    destruct (known_dropped _ _ _ Hn K) as [Kt Kd].
    destruct t; try (repeat split; auto; fail). known_inv Kt.
    settle_cases o; repeat split; auto.
Qed.

(** ** Rendering *)

Lemma derived_player_eq (s : AppState) :
  derived_player s =
  if truthy (selectedPlayerId s) then find_player (selectedPlayerId s) (players s)
  else None.
Proof.
  unfold derived_player, selectionEffect.
  destruct (truthy (selectedPlayerId s)); reflexivity.
Qed.

Lemma render_rerun (m : Machine) :
  deps m <> current_deps m ->
  render m = exec (selectionEffect (app m)) (seen (current_deps m) m).
Proof.
  intros H. unfold render.
  destruct (deps_eqb (current_deps m) (deps m)) eqn:E; [|reflexivity].
  apply deps_eqb_true in E. congruence.
Qed.

Lemma render_idle (m : Machine) : stable m -> render m = m.
Proof.
  unfold stable, render. intros H. rewrite H.
  replace (deps_eqb (current_deps m) (current_deps m)) with true; [reflexivity|].
  symmetry. apply deps_eqb_true. reflexivity.
Qed.

Lemma render_stable (m : Machine) : stable (render m).
Proof.
  unfold render, stable.
  destruct (deps_eqb (current_deps m) (deps m)) eqn:E.
  - apply deps_eqb_true in E. congruence.
  - unfold selectionEffect.
    destruct (truthy (selectedPlayerId (app m))); reflexivity.
Qed.

Lemma render_known (m : Machine) :
  Forall known (pending m) -> Forall known (pending (render m)).
Proof.
  intros K. unfold render.
  destruct (deps_eqb (current_deps m) (deps m)); [exact K|].
  unfold selectionEffect.
  destruct (truthy (selectedPlayerId (app m))); simpl; [|exact K].
  apply Forall_app. split; [exact K|]. constructor; [|constructor].
  apply (known_fetchActions (selectedPlayerId (app m))). reflexivity.
Qed.

Lemma render_selection (m : Machine) :
  selectedPlayerId (app (render m)) = selectedPlayerId (app m)
  /\ players (app (render m)) = players (app m)
  /\ playersRef (render m) = playersRef m.
Proof.
  unfold render.
  destruct (deps_eqb (current_deps m) (deps m)); [auto|].
  unfold selectionEffect.
  destruct (truthy (selectedPlayerId (app m))); simpl; auto.
Qed.

Lemma render_snapshot (m : Machine) :
  deps m <> current_deps m ->
  selectedPlayer (app (render m)) = derived_player (app m).
Proof.
  intros H. rewrite (render_rerun m H), derived_player_eq.
  unfold selectionEffect.
  destruct (truthy (selectedPlayerId (app m))); reflexivity.
Qed.

Lemma derived_player_ext (s1 s2 : AppState) :
  selectedPlayerId s1 = selectedPlayerId s2 -> players s1 = players s2 ->
  derived_player s1 = derived_player s2.
Proof.
  intros H1 H2. rewrite !derived_player_eq, H1, H2. reflexivity.
Qed.

Lemma step_invariant (m : Machine) (e : Event) :
  invariant m -> invariant (step m e).
Proof.
  intros (St & K & Sn). unfold step.
  pose proof (handle_known m e K) as K1.
  pose proof (handle_footprint m e K) as (Fd & Fp & Fs & Fl).
  destruct (render_selection (handle m e)) as (Rs & Rp & Rr).
  split; [apply render_stable|]. split; [apply render_known; exact K1|].
  destruct (jsstring_dec (selectedPlayerId (app (handle m e))) (selectedPlayerId (app m)))
    as [Es | Ns].
  - destruct Fl as [[Fr Fl] | Fr].
    + assert (S1 : stable (handle m e)).
      { unfold stable, current_deps. rewrite Fd, St, Es, Fr. reflexivity. }
      rewrite (render_idle _ S1), Fp, Sn.
      apply derived_player_ext; congruence.
    + rewrite render_snapshot.
      * apply derived_player_ext; congruence.
      * rewrite Fd, St. unfold current_deps. rewrite Fr. intros H. inversion H. lia.
  - rewrite render_snapshot.
    + apply derived_player_ext; congruence.
    + rewrite Fd, St. unfold current_deps. intros H. inversion H. congruence.
Qed.

Lemma mount_invariant : invariant mount.
Proof.
  repeat split.
  repeat constructor.
Qed.

Lemma run_app (events : list Event) (e : Event) :
  run (events ++ [e]) = step (run events) e.
Proof. unfold run. rewrite fold_left_app. reflexivity. Qed.

Lemma run_invariant (events : list Event) : invariant (run events).
Proof.
  induction events as [|e events IH] using rev_ind.
  - exact mount_invariant.
  - rewrite run_app. apply step_invariant, IH.
Qed.

(** ** Submitting an action *)

Lemma submit_declined (m : Machine) :
  stable m ->
  selectedPlayerId (app m) = [] \/ blank (newActionText (app m)) = true ->
  step m SubmitForm = emit PreventDefault m.
Proof.
  intros St H. unfold step. simpl. rewrite truthy_trim.
  assert (G : (negb (truthy (selectedPlayerId (app m)))
               || negb (negb (blank (newActionText (app m)))))%bool = true).
  { destruct H as [H | H]; rewrite H; simpl; [reflexivity | apply orb_true_r]. }
  rewrite G. simpl. apply render_idle. exact St.
Qed.

Lemma submit_sent (m : Machine) :
  stable m ->
  selectedPlayerId (app m) <> [] -> blank (newActionText (app m)) = false ->
  exists k,
    step m SubmitForm =
    suspend (TaskPost {| new_player_id := selectedPlayerId (app m);
                         new_action_text := newActionText (app m);
                         new_turn_number := Z.of_nat (List.length (actions (app m))) + 1 |} k)
            (emit PreventDefault m).
Proof.
  intros St Hs Hb. unfold step. simpl. rewrite truthy_trim, Hb.
  apply truthy_nonempty in Hs. rewrite Hs. simpl.
  eexists. apply render_idle. exact St.
Qed.

(** C4. A submission attempt made while no player is selected, or while the
    pending text is empty or white space only, does nothing: every state
    cell is unchanged, no request goes in flight, and the only call made is
    [preventDefault] on the submit event (no fetch, no alert, no console
    message, no rejection). *)
Theorem C4_blank_or_unselected_submit_does_nothing (events : list Event) :
  selectedPlayerId (app (run events)) = []
  \/ blank (newActionText (app (run events))) = true ->
  app (step (run events) SubmitForm) = app (run events)
  /\ pending (step (run events) SubmitForm) = pending (run events)
  /\ output (step (run events) SubmitForm) = output (run events) ++ [PreventDefault].
Proof.
  intros H. destruct (run_invariant events) as (St & _).
  rewrite (submit_declined _ St H). repeat split.
Qed.

Lemma C4_witness :
  (selectedPlayerId (app (run (rogue_session ++ [TextChange (str "  ")]))) = []
   \/ blank (newActionText (app (run (rogue_session ++ [TextChange (str "  ")])))) = true)
  /\ app (step (run (rogue_session ++ [TextChange (str "  ")])) SubmitForm)
     = app (run (rogue_session ++ [TextChange (str "  ")])).
Proof.
  split.
  - right. vm_compute. reflexivity.
  - apply (C4_blank_or_unselected_submit_does_nothing
             (rogue_session ++ [TextChange (str "  ")])).
    right. vm_compute. reflexivity.
Defined.

(** C2. Submitting non-blank text while a player is selected and the
    displayed log holds N entries sends exactly one create request, whose
    [turn_number] is N + 1: the length of the log held by the client, plus
    one. *)
Theorem C2_turn_number_is_log_length_plus_one (events : list Event) :
  selectedPlayerId (app (run events)) <> [] ->
  blank (newActionText (app (run events))) = false ->
  output (step (run events) SubmitForm) =
    output (run events) ++
    [ PreventDefault;
      Fetch (PostAction
        {| new_player_id := selectedPlayerId (app (run events));
           new_action_text := newActionText (app (run events));
           new_turn_number := Z.of_nat (List.length (actions (app (run events)))) + 1 |}) ].
Proof.
  intros Hs Hb. destruct (run_invariant events) as (St & _).
  destruct (submit_sent _ St Hs Hb) as (k & ->). simpl.
  rewrite <- app_assoc. reflexivity.
Qed.

Lemma C2_witness :
  output (step (run (rogue_session ++ [TextChange (str "Sneak past")])) SubmitForm) =
    output (run (rogue_session ++ [TextChange (str "Sneak past")])) ++
    [ PreventDefault;
      Fetch (PostAction
        {| new_player_id := str "p1";
           new_action_text := str "Sneak past";
           new_turn_number := 2 |}) ].
Proof.
  apply (C2_turn_number_is_log_length_plus_one
           (rogue_session ++ [TextChange (str "Sneak past")])).
  - vm_compute. discriminate.
  - vm_compute. reflexivity.
Defined.

(** ** A request settles *)

Lemma pending_known (m : Machine) (i : nat) (t : Task) :
  invariant m -> nth_error (pending m) i = Some t -> known t.
Proof.
  intros (_ & K & _) Hn. exact (proj1 (known_dropped _ _ _ Hn K)).
Qed.

Lemma stable_drop (m : Machine) (i : nat) : stable m -> stable (drop_pending i m).
Proof. intros H. exact H. Qed.


Lemma post_settled_success (m : Machine) (i : nat) (body : NewAction) k o :
  invariant m -> nth_error (pending m) i = Some (TaskPost body k) ->
  request_failed o = false ->
  exists k',
    step m (PostSettled i o) =
    suspend (TaskActions (new_player_id body) k')
            (apply_op (setNewActionText []) (drop_pending i m)).
Proof.
  intros Inv Hn Hf. pose proof (pending_known _ _ _ Inv Hn) as Kt.
  destruct Inv as (St & _). unfold step. simpl. rewrite Hn.
  known_inv Kt.
  destruct o as [[ok' j] | e]; simpl in Hf |- *; [|discriminate Hf].
  apply negb_false_iff in Hf. subst ok'. simpl.
  eexists. apply render_idle. exact St.
Qed.

Lemma actions_settled_failure (m : Machine) (i : nat) (playerId : jsstring) k o :
  invariant m -> nth_error (pending m) i = Some (TaskActions playerId k) ->
  request_failed o = true ->
  step m (ActionsSettled i o) =
  emit (ConsoleError (str "Error fetching actions:")
                     (thrown_by o (str "Failed to fetch actions")))
       (drop_pending i m).
Proof.
  intros Inv Hn Hf. pose proof (pending_known _ _ _ Inv Hn) as Kt.
  destruct Inv as (St & _). unfold step. simpl. rewrite Hn.
  known_inv Kt.
  destruct o as [[ok' j] | e]; simpl in Hf |- *.
  - apply negb_true_iff in Hf. subst ok'. simpl.
    apply render_idle. exact St.
  - apply render_idle. exact St.
Qed.

Lemma actions_settled_unparsed (m : Machine) (i : nat) (playerId : jsstring) k reason :
  invariant m -> nth_error (pending m) i = Some (TaskActions playerId k) ->
  step m (ActionsSettled i (Fulfilled (mkResponse true (inl reason)))) =
  emit (ConsoleError (str "Error fetching actions:") reason) (drop_pending i m).
Proof.
  intros Inv Hn. pose proof (pending_known _ _ _ Inv Hn) as Kt.
  destruct Inv as (St & _). unfold step. simpl. rewrite Hn.
  known_inv Kt. simpl. apply render_idle. exact St.
Qed.

Lemma actions_settled_data (m : Machine) (i : nat) (playerId : jsstring) k data :
  invariant m -> nth_error (pending m) i = Some (TaskActions playerId k) ->
  step m (ActionsSettled i (ok_with data)) =
  apply_op (setActions (if Array_isArray data then elements data else []))
           (drop_pending i m).
Proof.
  intros Inv Hn. pose proof (pending_known _ _ _ Inv Hn) as Kt.
  destruct Inv as (St & _). unfold step. simpl. rewrite Hn.
  known_inv Kt. destruct data; simpl; apply render_idle; exact St.
Qed.

Lemma players_settled_failure (m : Machine) (i : nat) k o :
  invariant m -> nth_error (pending m) i = Some (TaskPlayers k) ->
  request_failed o = true ->
  step m (PlayersSettled i o) =
  apply_op (setLoading false)
    (apply_op (setError (Some (message_or (thrown_by o (str "Failed to fetch players"))
                                          (str "Unknown error"))))
       (drop_pending i m)).
Proof.
  intros Inv Hn Hf. pose proof (pending_known _ _ _ Inv Hn) as Kt.
  destruct Inv as (St & _). unfold step. simpl. rewrite Hn.
  known_inv Kt.
  destruct o as [[ok' j] | e]; simpl in Hf |- *.
  - apply negb_true_iff in Hf. subst ok'. simpl.
    apply render_idle. exact St.
  - apply render_idle. exact St.
Qed.

Lemma players_settled_unparsed (m : Machine) (i : nat) k reason :
  invariant m -> nth_error (pending m) i = Some (TaskPlayers k) ->
  step m (PlayersSettled i (Fulfilled (mkResponse true (inl reason)))) =
  apply_op (setLoading false)
    (apply_op (setError (Some (message_or reason (str "Unknown error"))))
       (drop_pending i m)).
Proof.
  intros Inv Hn. pose proof (pending_known _ _ _ Inv Hn) as Kt.
  destruct Inv as (St & _). unfold step. simpl. rewrite Hn.
  known_inv Kt. simpl. apply render_idle. exact St.
Qed.

Lemma players_settled_data (m : Machine) (i : nat) k data :
  invariant m -> nth_error (pending m) i = Some (TaskPlayers k) ->
  step m (PlayersSettled i (ok_with data)) =
  render (apply_op (setLoading false)
            (apply_op (setPlayers (if Array_isArray data then elements data else []))
               (drop_pending i m))).
Proof.
  intros Inv Hn. pose proof (pending_known _ _ _ Inv Hn) as Kt.
  unfold step. simpl. rewrite Hn.
  known_inv Kt. destruct data; reflexivity.
Qed.

(** After the player array is replaced, the selection effect runs again on
    the new array. *)
Lemma render_fresh_players (m : Machine) :
  deps m <> current_deps m ->
  app (render m) =
    (if truthy (selectedPlayerId (app m)) then
       app (apply_op (setSelectedPlayer
                        (find_player (selectedPlayerId (app m)) (players (app m)))) m)
     else app (apply_op (setActions []) (apply_op (setSelectedPlayer None) m)))
  /\ output (render m) =
       output m ++ (if truthy (selectedPlayerId (app m))
                    then [Fetch (GetActions (selectedPlayerId (app m)))] else []).
Proof.
  intros H. rewrite (render_rerun m H). unfold selectionEffect.
  destruct (truthy (selectedPlayerId (app m))); simpl; split; auto.
  rewrite app_nil_r. reflexivity.
Qed.

Lemma length_dropped {A : Type} (l : list A) (i : nat) (t : A) :
  nth_error l i = Some t ->
  List.length (firstn i l ++ skipn (S i) l) = List.length l - 1.
Proof.
  intros Hn. pose proof (firstn_skipn_middle i l Hn) as E.
  apply (f_equal (@List.length A)) in E.
  rewrite length_app in E |- *. cbn [List.length] in E. lia.
Qed.

Lemma nth_error_last {A : Type} (l : list A) (t : A) :
  nth_error (l ++ [t]) (List.length l) = Some t.
Proof.
  rewrite nth_error_app2 by lia. rewrite Nat.sub_diag. reflexivity.
Qed.



(** C6. When a create request in flight succeeds, the continuation of the
    submission empties the text buffer and calls [fetchActions] for the
    player id the request carried; the log itself is not touched by it (no
    entry is appended on the client), and when that new fetch answers with an
    array the log becomes exactly that array. *)
Theorem C6_successful_submission_clears_draft_and_refetches
    (events : list Event) (i : nat) (body : NewAction)
    (k : Settled PlayerAction -> Async) (o : Settled PlayerAction) :
  nth_error (pending (run events)) i = Some (TaskPost body k) ->
  request_failed o = false ->
  newActionText (app (step (run events) (PostSettled i o))) = []
  /\ actions (app (step (run events) (PostSettled i o))) = actions (app (run events))
  /\ output (step (run events) (PostSettled i o)) =
       output (run events) ++ [Fetch (GetActions (new_player_id body))]
  /\ map request_of (pending (step (run events) (PostSettled i o))) =
       map request_of (firstn i (pending (run events)) ++ skipn (S i) (pending (run events)))
       ++ [GetActions (new_player_id body)]
  /\ forall items,
       actions (app (step (step (run events) (PostSettled i o))
                          (ActionsSettled (List.length (pending (run events)) - 1)
                                          (ok_with (JArray items)))))
       = items.
Proof.
  intros Hn Hf.
  pose proof (run_invariant (events ++ [PostSettled i o])) as Inv'.
  rewrite run_app in Inv'.
  destruct (post_settled_success _ _ _ _ _ (run_invariant events) Hn Hf) as (k' & E).
  rewrite E in Inv' |- *. simpl.
  repeat split.
  - rewrite map_app. reflexivity.
  - intros items.
    rewrite (actions_settled_data _ _ (new_player_id body) k' _ Inv'); [reflexivity|].
    simpl. rewrite <- (length_dropped _ _ _ Hn). apply nth_error_last.
Qed.

Lemma C6_witness :
  newActionText
    (app (step (run (rogue_session ++ [TextChange (str "Sneak past"); SubmitForm]))
               (PostSettled 0 (ok_with (JObject)))))
    = []
  /\ output (step (run (rogue_session ++ [TextChange (str "Sneak past"); SubmitForm]))
                  (PostSettled 0 (ok_with (JObject))))
     = output (run (rogue_session ++ [TextChange (str "Sneak past"); SubmitForm]))
       ++ [Fetch (GetActions (str "p1"))].
Proof.
  edestruct (C6_successful_submission_clears_draft_and_refetches
               (rogue_session ++ [TextChange (str "Sneak past"); SubmitForm]) 0)
    with (o := ok_with (@JObject PlayerAction))
    as (Htext & _ & Hout & _); [vm_compute; reflexivity | vm_compute; reflexivity |].
  split; [exact Htext | exact Hout].
Defined.

(** C8. When an action-log fetch in flight fails (the transport rejects, or
    the status is not a success), its continuation only calls
    [console.error]: every state cell, the displayed log and the [error]
    message among them, is as it was, no alert is raised and no request is
    issued. *)
Theorem C8_failed_log_fetch_only_logs
    (events : list Event) (i : nat) (playerId : jsstring)
    (k : Settled PlayerAction -> Async) (o : Settled PlayerAction) :
  nth_error (pending (run events)) i = Some (TaskActions playerId k) ->
  request_failed o = true ->
  app (step (run events) (ActionsSettled i o)) = app (run events)
  /\ output (step (run events) (ActionsSettled i o)) =
       output (run events) ++
       [ConsoleError (str "Error fetching actions:")
                     (thrown_by o (str "Failed to fetch actions"))]
  /\ pending (step (run events) (ActionsSettled i o)) =
       firstn i (pending (run events)) ++ skipn (S i) (pending (run events)).
Proof.
  intros Hn Hf.
  rewrite (actions_settled_failure _ _ _ _ _ (run_invariant events) Hn Hf).
  repeat split.
Qed.

Lemma C8_witness :
  actions
    (app (step (run (rogue_session ++ [SelectChange (str "p2")]))
               (ActionsSettled 0 (Rejected (ErrorObject (str "Failed to fetch"))))))
    = [pick_lock]
  /\ error
       (app (step (run (rogue_session ++ [SelectChange (str "p2")]))
                  (ActionsSettled 0 (Rejected (ErrorObject (str "Failed to fetch"))))))
     = None.
Proof.
  edestruct (C8_failed_log_fetch_only_logs
               (rogue_session ++ [SelectChange (str "p2")]) 0)
    with (o := @Rejected PlayerAction (ErrorObject (str "Failed to fetch")))
    as (Happ & _); [vm_compute; reflexivity | vm_compute; reflexivity |].
  rewrite Happ. split; vm_compute; reflexivity.
Defined.

(** ** What a run puts out *)

Lemma handle_output (m : Machine) (e : Event) :
  Forall known (pending m) ->
  exists new, output (handle m e) = output m ++ new /\ forallb routine new = true.
Proof.
  intros K.
  assert (Same : exists new, output m = output m ++ new /\ forallb routine new = true).
  { exists []. rewrite app_nil_r. split; reflexivity. }
  destruct e as [v | v | | i o | i o | i o]; simpl; try exact Same.
  - rewrite truthy_trim.
    destruct (truthy (selectedPlayerId (app m))), (blank (newActionText (app m)));
      simpl; try (exists [PreventDefault]; split; reflexivity).
    eexists [PreventDefault; _]. rewrite <- app_assoc. split; reflexivity.
  - destruct (nth_error (pending m) i) as [t|] eqn:Hn; [|exact Same].
    destruct (known_dropped _ _ _ Hn K) as [Kt Kd].
    destruct t; try exact Same. known_inv Kt.
    settle_cases o; exact Same.
  - destruct (nth_error (pending m) i) as [t|] eqn:Hn; [|exact Same].
    destruct (known_dropped _ _ _ Hn K) as [Kt Kd].
    destruct t; try exact Same. known_inv Kt.
    settle_cases o; try exact Same; eexists [_]; split; reflexivity.
  - destruct (nth_error (pending m) i) as [t|] eqn:Hn; [|exact Same].
    destruct (known_dropped _ _ _ Hn K) as [Kt Kd].
    destruct t; try exact Same. known_inv Kt.
    settle_cases o; try exact Same; eexists [_]; split; reflexivity.
Qed.

Lemma render_output (m : Machine) :
  exists new, output (render m) = output m ++ new /\ forallb routine new = true.
Proof.
  unfold render.
  destruct (deps_eqb (current_deps m) (deps m)).
  - exists []. rewrite app_nil_r. split; reflexivity.
  - unfold selectionEffect.
    destruct (truthy (selectedPlayerId (app m))); simpl.
    + eexists [_]. split; reflexivity.
    + exists []. rewrite app_nil_r. split; reflexivity.
Qed.

Lemma step_output (m : Machine) (e : Event) :
  Forall known (pending m) ->
  exists new, output (step m e) = output m ++ new /\ forallb routine new = true.
Proof.
  intros K. unfold step.
  destruct (handle_output m e K) as (n1 & E1 & R1).
  destruct (render_output (handle m e)) as (n2 & E2 & R2).
  exists (n1 ++ n2). rewrite E2, E1, <- app_assoc, forallb_app, R1, R2.
  split; reflexivity.
Qed.

Lemma run_output (events : list Event) :
  exists new,
    output (run events) = Fetch GetPlayers :: new /\ forallb routine new = true.
Proof.
  induction events as [|e events (new & E & R)] using rev_ind.
  - exists []. split; reflexivity.
  - rewrite run_app.
    destruct (step_output (run events) e) as (n1 & E1 & R1).
    { apply run_invariant. }
    exists (new ++ n1). rewrite E1, E, forallb_app, R, R1. split; reflexivity.
Qed.

Lemma routine_not_players_fetch (new : list Output) :
  forallb routine new = true -> ~ In (Fetch GetPlayers) new.
Proof.
  intros R H. rewrite forallb_forall in R. specialize (R _ H). discriminate R.
Qed.

Lemma routine_not_unhandled (new : list Output) (reason : Thrown) :
  forallb routine new = true -> ~ In (UnhandledRejection reason) new.
Proof.
  intros R H. rewrite forallb_forall in R. specialize (R _ H). discriminate R.
Qed.

(** The player list is fetched once, when the component mounts, and no
    promise of the component is ever rejected without a handler. *)
Lemma one_players_fetch_no_rejection (events : list Event) :
  exists new,
    output (run events) = Fetch GetPlayers :: new
    /\ ~ In (Fetch GetPlayers) new
    /\ forall reason, ~ In (UnhandledRejection reason) (output (run events)).
Proof.
  destruct (run_output events) as (new & E & R).
  exists new. split; [exact E|]. split.
  - apply routine_not_players_fetch, R.
  - intros reason H. rewrite E in H. destruct H as [H | H]; [discriminate H|].
    exact (routine_not_unhandled _ _ R H).
Qed.

(** While the player list loads, nothing else can happen: the select is
    disabled and the form is not there. *)
Lemma only_the_player_list_can_settle_after_mount (e : Event) :
  enabled mount e = true -> exists o, e = PlayersSettled 0 o.
Proof.
  destruct e as [v | v | | i o | i o | i o]; simpl; try discriminate.
  - destruct i as [|[|i]]; simpl; try discriminate. intros _. exists o. reflexivity.
  - destruct i as [|[|i]]; simpl; discriminate.
  - destruct i as [|[|i]]; simpl; discriminate.
Qed.

(** C7. The player list is fetched when the component mounts: [fetchPlayers]
    sets [loading] to true and then issues the request, so the flag is true
    while the request is in flight; however the request settles, the flag is
    false afterwards.  When the request fails, the message of the error is
    stored in [error], the player list stays empty, nothing is left in
    flight, and no later event makes the component fetch the player list
    again. *)
Theorem C7_startup_fetch_sets_loading_and_records_failure (o : Settled Player) :
  (exists k, fetchPlayers = (setLoading true ;; AwaitPlayers k))
  /\ loading (app mount) = true
  /\ players (app mount) = []
  /\ output mount = [Fetch GetPlayers]
  /\ map request_of (pending mount) = [GetPlayers]
  /\ loading (app (step mount (PlayersSettled 0 o))) = false
  /\ (request_failed o = true ->
        error (app (step mount (PlayersSettled 0 o))) =
          Some (message_or (thrown_by o (str "Failed to fetch players"))
                           (str "Unknown error"))
        /\ players (app (step mount (PlayersSettled 0 o))) = []
        /\ pending (step mount (PlayersSettled 0 o)) = []
        /\ output (step mount (PlayersSettled 0 o)) = [Fetch GetPlayers]
        /\ forall later,
             exists new,
               output (run (PlayersSettled 0 o :: later)) = Fetch GetPlayers :: new
               /\ ~ In (Fetch GetPlayers) new).
Proof.
  split; [eexists; reflexivity|].
  repeat (split; [reflexivity|]).
  split.
  - destruct o as [[ok' [e | data]] | e]; [destruct ok' | destruct ok'; [destruct data|] |];
      reflexivity.
  - intros Hf.
    assert (Hn : nth_error (pending (run [])) 0 = first_await fetchPlayers) by reflexivity.
    pose proof (players_settled_failure (run []) 0 _ o (run_invariant []) Hn Hf) as E.
    change (run []) with mount in E. rewrite E.
    repeat (split; [reflexivity|]).
    intros later.
    destruct (one_players_fetch_no_rejection (PlayersSettled 0 o :: later))
      as (new & E1 & N1 & _).
    exists new. split; assumption.
Qed.

Lemma C7_witness :
  error (app (step mount (PlayersSettled 0 (Rejected (ErrorObject (str "Failed to fetch"))))))
    = Some (str "Failed to fetch")
  /\ players (app (step mount (PlayersSettled 0 (Rejected (ErrorObject (str "Failed to fetch"))))))
     = []
  /\ loading (app (step mount (PlayersSettled 0 (Rejected (ErrorObject (str "Failed to fetch"))))))
     = false.
Proof.
  destruct (C7_startup_fetch_sets_loading_and_records_failure
              (Rejected (ErrorObject (str "Failed to fetch"))))
    as (_ & _ & _ & _ & _ & Hl & Hf).
  destruct (Hf eq_refl) as (He & Hp & _).
  split; [exact He|]. split; [exact Hp | exact Hl].
Defined.

Lemma render_error_loading (m : Machine) :
  error (app (render m)) = error (app m) /\ loading (app (render m)) = loading (app m).
Proof.
  unfold render. destruct (deps_eqb (current_deps m) (deps m)); [auto|].
  unfold selectionEffect.
  destruct (truthy (selectedPlayerId (app m))); simpl; auto.
Qed.

(** C9. A success response whose parsed body is not an array empties the
    state cell it was fetched for: [players] after a player-list fetch,
    [actions] after an action-log fetch.  The [error] message is not
    written and nothing is thrown: the only output is the action-log fetch
    of the selection effect, which runs again on the new player array while
    a player is selected. *)
Theorem C9_non_array_payload_becomes_empty (events : list Event) (i : nat) :
  (forall k (data : Json Player),
     nth_error (pending (run events)) i = Some (TaskPlayers k) ->
     Array_isArray data = false ->
     players (app (step (run events) (PlayersSettled i (ok_with data)))) = []
     /\ error (app (step (run events) (PlayersSettled i (ok_with data))))
        = error (app (run events))
     /\ output (step (run events) (PlayersSettled i (ok_with data))) =
          output (run events) ++
          (if truthy (selectedPlayerId (app (run events)))
           then [Fetch (GetActions (selectedPlayerId (app (run events))))]
           else []))
  /\ (forall playerId k (data : Json PlayerAction),
        nth_error (pending (run events)) i = Some (TaskActions playerId k) ->
        Array_isArray data = false ->
        actions (app (step (run events) (ActionsSettled i (ok_with data)))) = []
        /\ error (app (step (run events) (ActionsSettled i (ok_with data))))
           = error (app (run events))
        /\ output (step (run events) (ActionsSettled i (ok_with data)))
           = output (run events)).
Proof.
  pose proof (run_invariant events) as Inv. split.
  - intros k data Hn Ha.
    rewrite (players_settled_data _ _ _ data Inv Hn).
    rewrite Ha. destruct Inv as (St & _).
    match goal with |- context [render ?x] => set (m1 := x) end.
    assert (D : deps m1 <> current_deps m1).
    { unfold m1, current_deps. simpl. rewrite St. unfold current_deps.
      intros H. inversion H. lia. }
    destruct (render_selection m1) as (_ & Rp & _).
    destruct (render_error_loading m1) as (Re & _).
    destruct (render_fresh_players m1 D) as (_ & Ro).
    rewrite Rp, Re, Ro. repeat split.
  - intros playerId k data Hn Ha.
    rewrite (actions_settled_data _ _ _ _ data Inv Hn).
    rewrite Ha. repeat split.
Qed.

Lemma C9_witness :
  players (app (step (run []) (PlayersSettled 0 (ok_with (JString (str "oops")))))) = []
  /\ actions
       (app (step (run (rogue_session ++ [SelectChange (str "p2")]))
                  (ActionsSettled 0 (ok_with JNull)))) = [].
Proof.
  split.
  - edestruct (proj1 (C9_non_array_payload_becomes_empty [] 0))
      with (data := @JString Player (str "oops")) as (Hp & _);
      [vm_compute; reflexivity | reflexivity | exact Hp].
  - edestruct (proj2 (C9_non_array_payload_becomes_empty
                        (rogue_session ++ [SelectChange (str "p2")]) 0))
      with (data := @JNull PlayerAction) as (Ha & _);
      [vm_compute; reflexivity | reflexivity | exact Ha].
Defined.

(** ** Selecting a player *)

Lemma find_player_unique (value : jsstring) (ps : list Player) (p : Player) :
  In p ps -> id p = value ->
  (forall q, In q ps -> id q = value -> q = p) ->
  find_player value ps = Some p.
Proof.
  intros Hin Hid Huniq. unfold find_player.
  destruct (find (fun q => strict_eq (id q) value) ps) as [q|] eqn:F.
  - apply find_some in F. destruct F as [Hq Heq].
    apply strict_eq_true in Heq. rewrite (Huniq q Hq Heq). reflexivity.
  - apply (find_none _ _ F) in Hin. simpl in Hin.
    rewrite Hid, strict_eq_refl in Hin. discriminate Hin.
Qed.

Lemma find_player_absent (value : jsstring) (ps : list Player) :
  ~ In value (map id ps) -> find_player value ps = None.
Proof.
  intros Habs. unfold find_player.
  destruct (find (fun q => strict_eq (id q) value) ps) as [q|] eqn:F; [|reflexivity].
  apply find_some in F. destruct F as [Hq Heq].
  apply strict_eq_true in Heq. exfalso. apply Habs. rewrite <- Heq.
  apply in_map. exact Hq.
Qed.

Lemma select_change_state (m : Machine) (value : jsstring) :
  invariant m ->
  selectedPlayerId (app (step m (SelectChange value))) = value
  /\ players (app (step m (SelectChange value))) = players (app m)
  /\ selectedPlayer (app (step m (SelectChange value))) =
       (if truthy value then find_player value (players (app m)) else None).
Proof.
  intros Inv.
  destruct (step_invariant m (SelectChange value) Inv) as (_ & _ & Sn).
  unfold step in *.
  destruct (render_selection (handle m (SelectChange value))) as (Rs & Rp & _).
  rewrite Sn, derived_player_eq, Rs, Rp. simpl. auto.
Qed.

Lemma select_change_output (m : Machine) (value : jsstring) :
  exists new,
    output (step m (SelectChange value)) = output m ++ new
    /\ forall req, In (Fetch req) new -> req = GetActions value.
Proof.
  unfold step, render. simpl.
  match goal with |- context [deps_eqb ?a ?b] => destruct (deps_eqb a b) end.
  - exists []. rewrite app_nil_r. split; [reflexivity | intros req []].
  - unfold selectionEffect. simpl. destruct (truthy value); simpl.
    + exists [Fetch (GetActions value)]. split; [reflexivity|].
      intros req [H | []]. inversion H. reflexivity.
    + exists []. rewrite app_nil_r. split; [reflexivity | intros req []].
Qed.

(** C3. When an id is selected, the snapshot is what the linear lookup of
    that id in the current player list finds: the element with that id when
    the id is not empty and the list holds exactly one such element, and
    none when the id is empty or no element has it.  The player list is not
    touched and the only request the selection can issue is the action-log
    fetch for that id: nothing is fetched for the snapshot itself. *)
Theorem C3_snapshot_is_looked_up_in_player_list (events : list Event) (value : jsstring) :
  (value <> [] ->
     forall p, In p (players (app (run events))) -> id p = value ->
       (forall q, In q (players (app (run events))) -> id q = value -> q = p) ->
       selectedPlayer (app (step (run events) (SelectChange value))) = Some p)
  /\ (value = [] \/ ~ In value (map id (players (app (run events)))) ->
        selectedPlayer (app (step (run events) (SelectChange value))) = None)
  /\ selectedPlayer (app (step (run events) (SelectChange value))) =
       (if truthy value then find_player value (players (app (run events))) else None)
  /\ players (app (step (run events) (SelectChange value))) = players (app (run events))
  /\ exists new,
       output (step (run events) (SelectChange value)) = output (run events) ++ new
       /\ forall req, In (Fetch req) new -> req = GetActions value.
Proof.
  destruct (select_change_state (run events) value (run_invariant events))
    as (_ & Hp & Hs).
  split; [|split; [|split; [exact Hs | split; [exact Hp | apply select_change_output]]]].
  - intros Hv p Hin Hid Huniq. rewrite Hs.
    apply truthy_nonempty in Hv. rewrite Hv.
    apply find_player_unique; assumption.
  - intros [Hv | Habs]; rewrite Hs.
    + rewrite Hv. reflexivity.
    + destruct (truthy value); [apply find_player_absent; exact Habs | reflexivity].
Qed.

Lemma C3_witness :
  selectedPlayer
    (app (step (run [PlayersSettled 0 (ok_with (JArray [rogue; bard]))])
               (SelectChange (str "p2")))) = Some bard
  /\ selectedPlayer
       (app (step (run [PlayersSettled 0 (ok_with (JArray [rogue; bard]))])
                  (SelectChange (str "p3")))) = None.
Proof.
  split.
  - apply (proj1 (C3_snapshot_is_looked_up_in_player_list
                    [PlayersSettled 0 (ok_with (JArray [rogue; bard]))] (str "p2"))).
    + vm_compute. discriminate.
    + right; left. reflexivity.
    + reflexivity.
    + intros q [Hq | [Hq | []]] Hid; subst q; [vm_compute in Hid; discriminate Hid | reflexivity].
  - apply (proj1 (proj2 (C3_snapshot_is_looked_up_in_player_list
                           [PlayersSettled 0 (ok_with (JArray [rogue; bard]))] (str "p3")))).
    right. vm_compute. intros [H | [H | []]]; discriminate H.
Defined.

(** C10. When the submitted text has a character that is not white space
    (and a player is selected), the [action_text] of the create request is
    the text buffer as it is, white space at either end included: it is not
    the trimmed text the validation looked at, whenever the two differ. *)
Theorem C10_action_text_is_sent_untrimmed (events : list Event) :
  selectedPlayerId (app (run events)) <> [] ->
  existsb (fun c => negb (isWhiteSpace c)) (newActionText (app (run events))) = true ->
  exists body,
    output (step (run events) SubmitForm) =
      output (run events) ++ [PreventDefault; Fetch (PostAction body)]
    /\ new_action_text body = newActionText (app (run events))
    /\ (trim (newActionText (app (run events))) <> newActionText (app (run events)) ->
        new_action_text body <> trim (newActionText (app (run events)))).
Proof.
  intros Hs Hink. rewrite nonblank_has_ink in Hink. apply negb_true_iff in Hink.
  destruct (run_invariant events) as (St & _).
  destruct (submit_sent _ St Hs Hink) as (k & E).
  eexists. rewrite E. simpl. rewrite <- app_assoc.
  split; [reflexivity|]. split; [reflexivity|].
  simpl. intros H1 H2. apply H1. symmetry. exact H2.
Qed.

Lemma C10_witness :
  exists body,
    output (step (run (rogue_session ++ [TextChange (str "  Sneak past ")])) SubmitForm) =
      output (run (rogue_session ++ [TextChange (str "  Sneak past ")]))
      ++ [PreventDefault; Fetch (PostAction body)]
    /\ new_action_text body = str "  Sneak past "
    /\ new_action_text body <> trim (str "  Sneak past ").
Proof.
  edestruct (C10_action_text_is_sent_untrimmed
               (rogue_session ++ [TextChange (str "  Sneak past ")]))
    as (body & Hout & Htext & Hraw);
    [vm_compute; discriminate | vm_compute; reflexivity |].
  exists body. split; [exact Hout|]. split.
  - rewrite Htext. vm_compute. reflexivity.
  - apply Hraw. vm_compute. discriminate.
Defined.

(** ** The action log *)

Lemma render_actions (m : Machine) :
  actions (app (render m)) = actions (app m) \/ actions (app (render m)) = [].
Proof.
  unfold render. destruct (deps_eqb (current_deps m) (deps m)); [auto|].
  unfold selectionEffect.
  destruct (truthy (selectedPlayerId (app m))); simpl; auto.
Qed.

Lemma handle_actions (m : Machine) (e : Event) :
  Forall known (pending m) ->
  actions (app (handle m e)) = actions (app m)
  \/ actions (app (handle m e)) = []
  \/ exists i playerId k items,
       e = ActionsSettled i (ok_with (JArray items))
       /\ nth_error (pending m) i = Some (TaskActions playerId k)
       /\ actions (app (handle m e)) = items.
Proof.
  intros K.
  destruct e as [v | v | | i o | i o | i o]; simpl; auto.
  - rewrite truthy_trim.
    destruct (truthy (selectedPlayerId (app m))), (blank (newActionText (app m)));
      simpl; auto.
  - destruct (nth_error (pending m) i) as [t|] eqn:Hn; [|auto].
    destruct (known_dropped _ _ _ Hn K) as [Kt Kd].
    destruct t; auto. known_inv Kt.
    settle_cases o; auto.
  - destruct (nth_error (pending m) i) as [t|] eqn:Hn; [|auto].
    destruct (known_dropped _ _ _ Hn K) as [Kt Kd].
    destruct t; auto. known_inv Kt.
    settle_cases o; auto.
    right; right. do 4 eexists. split; [reflexivity|]. split; [exact Hn | reflexivity].
  - destruct (nth_error (pending m) i) as [t|] eqn:Hn; [|auto].
    destruct (known_dropped _ _ _ Hn K) as [Kt Kd].
    destruct t; auto. known_inv Kt.
    settle_cases o; auto.
Qed.

Lemma answered_later (events : list Event) (e : Event) playerId items :
  answered events playerId items -> answered (events ++ [e]) playerId items.
Proof.
  intros (before & i & k & after & E & Hn).
  exists before, i, k, (after ++ [e]). split; [|exact Hn].
  rewrite E, <- app_assoc. reflexivity.
Qed.

(** The displayed log is empty, or it is the array one action-log request
    was answered with: whole, and nothing else. *)
Lemma log_is_one_answer (events : list Event) :
  actions (app (run events)) = []
  \/ exists playerId items,
       answered events playerId items /\ actions (app (run events)) = items.
Proof.
  induction events as [|e events IH] using rev_ind.
  - left. reflexivity.
  - rewrite run_app. unfold step.
    destruct (run_invariant events) as (_ & K & _).
    destruct (render_actions (handle (run events) e)) as [R | R]; [|auto].
    rewrite R.
    destruct (handle_actions (run events) e K)
      as [H | [H | (i & playerId & k & items & He & Hn & H)]].
    + rewrite H. destruct IH as [IH | (playerId & items & A & IH)]; [auto|].
      right. exists playerId, items. split; [apply answered_later; exact A | exact IH].
    + auto.
    + right. exists playerId, items. split; [|exact H].
      exists events, i, k, []. split; [rewrite He; reflexivity | exact Hn].
Qed.

Lemma select_change_log (m : Machine) (value : jsstring) :
  stable m -> value <> selectedPlayerId (app m) ->
  step m (SelectChange value) =
  exec (selectionEffect (app (apply_op (setSelectedPlayerId value) m)))
       (seen (value, playersRef m) (apply_op (setSelectedPlayerId value) m)).
Proof.
  intros St Hv. unfold step. simpl handle.
  rewrite render_rerun; [reflexivity|].
  simpl. rewrite St. unfold current_deps. simpl. intros H. inversion H. congruence.
Qed.

Lemma handle_leaves_log (m : Machine) (e : Event) :
  Forall known (pending m) -> leaves_log e = true ->
  actions (app (handle m e)) = actions (app m).
Proof.
  intros K L.
  destruct e as [v | v | | i o | i o | i o]; simpl; try reflexivity.
  - rewrite truthy_trim.
    destruct (truthy (selectedPlayerId (app m))), (blank (newActionText (app m)));
      reflexivity.
  - destruct (nth_error (pending m) i) as [t|] eqn:Hn; [|reflexivity].
    destruct (known_dropped _ _ _ Hn K) as [Kt Kd].
    destruct t; try reflexivity. known_inv Kt.
    settle_cases o; reflexivity.
  - destruct (nth_error (pending m) i) as [t|] eqn:Hn; [|reflexivity].
    destruct (known_dropped _ _ _ Hn K) as [Kt Kd].
    destruct t; try reflexivity. known_inv Kt.
    settle_cases o; simpl in L; try discriminate L; reflexivity.
  - destruct (nth_error (pending m) i) as [t|] eqn:Hn; [|reflexivity].
    destruct (known_dropped _ _ _ Hn K) as [Kt Kd].
    destruct t; try reflexivity. known_inv Kt.
    settle_cases o; reflexivity.
Qed.

Lemma render_leaves_log (m : Machine) :
  truthy (selectedPlayerId (app m)) = true ->
  actions (app (render m)) = actions (app m).
Proof.
  intros T. unfold render.
  destruct (deps_eqb (current_deps m) (deps m)); [reflexivity|].
  unfold selectionEffect. rewrite T. reflexivity.
Qed.

Lemma step_leaves_log (m : Machine) (e : Event) :
  Forall known (pending m) ->
  truthy (selectedPlayerId (app m)) = true -> leaves_log e = true ->
  actions (app (step m e)) = actions (app m)
  /\ truthy (selectedPlayerId (app (step m e))) = true.
Proof.
  intros K T L.
  destruct (handle_footprint m e K) as (_ & _ & Fs & _).
  assert (T1 : truthy (selectedPlayerId (app (handle m e))) = true).
  { rewrite Fs. destruct e; try exact T. exact L. }
  unfold step. destruct (render_selection (handle m e)) as (Rs & _).
  rewrite (render_leaves_log _ T1), (handle_leaves_log m e K L), Rs.
  split; [reflexivity | exact T1].
Qed.

Lemma run_leaves_log (events later : list Event) :
  truthy (selectedPlayerId (app (run events))) = true ->
  forallb leaves_log later = true ->
  actions (app (run (events ++ later))) = actions (app (run events))
  /\ truthy (selectedPlayerId (app (run (events ++ later)))) = true.
Proof.
  intros T. induction later as [|e later IH] using rev_ind; intros L.
  - rewrite app_nil_r. split; [reflexivity | exact T].
  - rewrite forallb_app in L. apply andb_true_iff in L. destruct L as [L1 L2].
    simpl in L2. rewrite andb_true_r in L2.
    destruct (IH L1) as (A & T').
    rewrite app_assoc, run_app.
    destruct (run_invariant (events ++ later)) as (_ & K & _).
    destruct (step_leaves_log _ e K T' L2) as (A' & T'').
    split; [congruence | exact T''].
Qed.

(** C1, as the code has it.  Selecting the empty id clears the log at once
    and issues no request.  Selecting another, non-empty id issues the fetch
    of its action log and leaves the displayed log as it was: the log of the
    previous selection is displayed while the new id is selected, and it
    stays through every later event that is neither an action-log answer
    with a parsed body nor the choice of the empty id.  An array answered to
    the new fetch, when it comes next, or to any action-log request in flight
    later, replaces the log whole.  At every later moment the log is empty
    or is the array of one single answer, never entries of two answers. *)
Theorem C1_log_kept_until_the_new_fetch_answers (events : list Event) (value : jsstring) :
  value <> selectedPlayerId (app (run events)) ->
  (value = [] ->
     actions (app (step (run events) (SelectChange value))) = []
     /\ output (step (run events) (SelectChange value)) = output (run events)
     /\ pending (step (run events) (SelectChange value)) = pending (run events))
  /\ (value <> [] ->
        actions (app (step (run events) (SelectChange value))) = actions (app (run events))
        /\ output (step (run events) (SelectChange value)) =
             output (run events) ++ [Fetch (GetActions value)]
        /\ map request_of (pending (step (run events) (SelectChange value))) =
             map request_of (pending (run events)) ++ [GetActions value]
        /\ (forall items,
              actions (app (step (step (run events) (SelectChange value))
                                 (ActionsSettled (List.length (pending (run events)))
                                                 (ok_with (JArray items)))))
              = items)
        /\ (forall later,
              forallb leaves_log later = true ->
              actions (app (run (events ++ SelectChange value :: later)))
              = actions (app (run events))
              /\ selectedPlayerId (app (run (events ++ SelectChange value :: later))) <> [])
        /\ (forall later i playerId k items,
              nth_error (pending (run (events ++ SelectChange value :: later))) i
              = Some (TaskActions playerId k) ->
              actions (app (step (run (events ++ SelectChange value :: later))
                                 (ActionsSettled i (ok_with (JArray items)))))
              = items))
  /\ (forall later,
        actions (app (run (events ++ SelectChange value :: later))) = []
        \/ exists playerId items,
             answered (events ++ SelectChange value :: later) playerId items
             /\ actions (app (run (events ++ SelectChange value :: later))) = items).
Proof.
  intros Hv.
  pose proof (run_invariant (events ++ [SelectChange value])) as Inv'.
  rewrite run_app in Inv'.
  destruct (run_invariant events) as (St & _).
  split; [|split; [|intros later; apply log_is_one_answer]].
  - intros E. rewrite (select_change_log _ _ St Hv). subst value.
    simpl. repeat split.
  - intros Hne.
    assert (T : truthy value = true) by (apply truthy_nonempty; exact Hne).
    pose proof (select_change_log _ _ St Hv) as E.
    unfold selectionEffect in E. simpl in E. rewrite T in E. simpl in E.
    assert (Hlog : actions (app (step (run events) (SelectChange value)))
                   = actions (app (run events)))
      by (rewrite E; reflexivity).
    assert (Hsel : selectedPlayerId (app (step (run events) (SelectChange value))) = value)
      by (rewrite E; reflexivity).
    split; [exact Hlog|].
    split; [rewrite E; reflexivity|].
    split; [rewrite E; simpl; rewrite map_app; reflexivity|].
    split; [|split].
    + intros items. rewrite E in Inv' |- *.
      match type of Inv' with
      | invariant (suspend (TaskActions _ ?k) _) =>
          rewrite (actions_settled_data _ _ value k _ Inv'); [reflexivity|]
      end.
      simpl. apply nth_error_last.
    + intros later L.
      change (events ++ SelectChange value :: later)
        with (events ++ [SelectChange value] ++ later).
      rewrite app_assoc.
      destruct (run_leaves_log (events ++ [SelectChange value]) later) as (A & T');
        [rewrite run_app, Hsel; exact T | exact L |].
      rewrite run_app in A. split; [congruence | apply truthy_nonempty; exact T'].
    + intros later i playerId k items Hn.
      rewrite (actions_settled_data _ _ _ _ (JArray items)
                 (run_invariant (events ++ SelectChange value :: later)) Hn).
      reflexivity.
Qed.

Lemma C1_witness :
  actions (app (step (run rogue_session) (SelectChange (str "p2")))) = [pick_lock]
  /\ output (step (run rogue_session) (SelectChange (str "p2"))) =
       output (run rogue_session) ++ [Fetch (GetActions (str "p2"))]
  /\ actions (app (step (step (run rogue_session) (SelectChange (str "p2")))
                        (ActionsSettled 0 (ok_with (JArray []))))) = []
  /\ actions (app (run (rogue_session ++ SelectChange (str "p2")
                          :: [TextChange (str "x"); SubmitForm;
                              PostSettled 1 (Rejected NonError)])))
     = [pick_lock].
Proof.
  edestruct (C1_log_kept_until_the_new_fetch_answers rogue_session (str "p2"))
    as (_ & Hkept & _); [vm_compute; discriminate |].
  destruct Hkept as (Hlog & Hout & _ & Hnew & Hstay & _); [vm_compute; discriminate |].
  split; [rewrite Hlog; vm_compute; reflexivity|].
  split; [exact Hout|]. split; [exact (Hnew [])|].
  destruct (Hstay [TextChange (str "x"); SubmitForm; PostSettled 1 (Rejected NonError)])
    as (Hsame & _); [reflexivity|].
  rewrite Hsame. vm_compute. reflexivity.
Defined.

(** C1, as stated, fails.  The players load, the user selects the rogue,
    whose log loads, and then selects the bard: the fetch of the bard's log
    is issued and the log is not cleared, so while the bard is selected the
    displayed log is still the rogue's entry. *)
Lemma C1_old_log_shown_while_new_player_selected :
  all_enabled mount (rogue_session ++ [SelectChange (str "p2")]) = true
  /\ selectedPlayerId (app (run (rogue_session ++ [SelectChange (str "p2")]))) = str "p2"
  /\ map request_of (pending (run (rogue_session ++ [SelectChange (str "p2")])))
     = [GetActions (str "p2")]
  /\ actions (app (run (rogue_session ++ [SelectChange (str "p2")]))) = [pick_lock]
  /\ player_id pick_lock = str "p1"
  /\ ~ (forall events value,
          value <> selectedPlayerId (app (run events)) ->
          forall a, In a (actions (app (step (run events) (SelectChange value)))) ->
                    player_id a = value).
Proof.
  repeat (split; [vm_compute; reflexivity|]).
  intros H.
  assert (Hv : str "p2" <> selectedPlayerId (app (run rogue_session)))
    by (vm_compute; discriminate).
  assert (Hin : In pick_lock (actions (app (step (run rogue_session) (SelectChange (str "p2"))))))
    by (vm_compute; left; reflexivity).
  specialize (H rogue_session (str "p2") Hv pick_lock Hin).
  vm_compute in H. discriminate H.
Qed.

(** The scenario of the specification: with the rogue selected and no action
    logged yet, submitting "Pick the lock" sends turn number 1. *)
Example first_action_of_the_rogue :
  output (run [ PlayersSettled 0 (ok_with (JArray [rogue]));
                SelectChange (str "p1");
                ActionsSettled 0 (ok_with (JArray []));
                TextChange (str "Pick the lock");
                SubmitForm ])
  = [ Fetch GetPlayers;
      Fetch (GetActions (str "p1"));
      PreventDefault;
      Fetch (PostAction {| new_player_id := str "p1";
                           new_action_text := str "Pick the lock";
                           new_turn_number := 1 |}) ].
Proof. vm_compute. reflexivity. Qed.

(** ** Beyond the single steps: what holds of every run *)

Lemma run_snapshot (events : list Event) :
  selectedPlayer (app (run events)) =
    if truthy (selectedPlayerId (app (run events)))
    then find_player (selectedPlayerId (app (run events))) (players (app (run events)))
    else None.
Proof.
  destruct (run_invariant events) as (_ & _ & Sn).
  rewrite Sn. apply derived_player_eq.
Qed.

(** The snapshot always follows the selection: after any events, it is
    what the lookup of the selected id in the current player list finds,
    and none while no id is selected. *)
Theorem snapshot_follows_selection (events : list Event) :
  selectedPlayer (app (run events)) =
    if truthy (selectedPlayerId (app (run events)))
    then find_player (selectedPlayerId (app (run events))) (players (app (run events)))
    else None.
Proof. apply run_snapshot. Qed.

(** Whenever the stats are displayed, an id is selected and the stats are
    those of a player of the list who has that id. *)
Theorem displayed_stats_belong_to_the_selected_id
    (events : list Event) (d : DetailsView) :
  details (view (app (run events))) = Some d ->
  selectedPlayerId (app (run events)) <> []
  /\ exists p,
       In p (players (app (run events)))
       /\ id p = selectedPlayerId (app (run events))
       /\ stats_name d = name p
       /\ (stats_hp d, stats_str d, stats_dex d, stats_int d, stats_gold d)
          = (hp p, strength p, dexterity p, intelligence p, gold p).
Proof.
  unfold view. simpl. rewrite (run_snapshot events).
  destruct (truthy (selectedPlayerId (app (run events)))) eqn:T; [|discriminate].
  destruct (find_player _ _) as [p|] eqn:F; [|discriminate].
  intros H. inversion H; subst d; clear H. simpl.
  split; [apply truthy_nonempty; exact T|].
  apply find_some in F. destruct F as [Hin Hid]. apply strict_eq_true in Hid.
  exists p. repeat split; assumption.
Qed.

Lemma displayed_stats_witness :
  selectedPlayerId (app (run rogue_session)) <> []
  /\ exists p,
       In p (players (app (run rogue_session)))
       /\ id p = selectedPlayerId (app (run rogue_session))
       /\ str "Rogue" = name p
       /\ (10, 5, 8, 4, 20)%Z = (hp p, strength p, dexterity p, intelligence p, gold p).
Proof.
  refine (displayed_stats_belong_to_the_selected_id rogue_session
            (mkDetailsView (str "Rogue") 10 5 8 4 20
               [TurnItem (str "a1") 1 (str "Pick the lock")] []) _).
  vm_compute. reflexivity.
Defined.

(** An action-log answer is applied whatever is selected by then: an array
    answered to the request for any player id becomes the displayed log,
    and the selection and the snapshot stay as they are.  So an answer that
    comes late shows the log of a player who is no longer the selected
    one. *)
Theorem late_log_answer_overwrites_the_log
    (events : list Event) (i : nat) (playerId : jsstring)
    (k : Settled PlayerAction -> Async) (items : list PlayerAction) :
  nth_error (pending (run events)) i = Some (TaskActions playerId k) ->
  actions (app (step (run events) (ActionsSettled i (ok_with (JArray items))))) = items
  /\ selectedPlayerId (app (step (run events) (ActionsSettled i (ok_with (JArray items)))))
     = selectedPlayerId (app (run events))
  /\ selectedPlayer (app (step (run events) (ActionsSettled i (ok_with (JArray items)))))
     = selectedPlayer (app (run events))
  /\ output (step (run events) (ActionsSettled i (ok_with (JArray items))))
     = output (run events).
Proof.
  intros Hn.
  rewrite (actions_settled_data _ _ _ _ (JArray items) (run_invariant events) Hn).
  repeat split.
Qed.

Lemma late_log_answer_witness :
  actions (app (step (run racing_session) (ActionsSettled 0 (ok_with (JArray [pick_lock])))))
    = [pick_lock]
  /\ selectedPlayerId
       (app (step (run racing_session) (ActionsSettled 0 (ok_with (JArray [pick_lock])))))
     = str "p2"
  /\ pending (step (run racing_session) (ActionsSettled 0 (ok_with (JArray [pick_lock]))))
     = [].
Proof.
  edestruct (late_log_answer_overwrites_the_log racing_session 0)
    with (items := [pick_lock]) as (Hlog & Hsel & _); [vm_compute; reflexivity |].
  split; [exact Hlog|]. split; [rewrite Hsel|]; vm_compute; reflexivity.
Defined.

(** The player list is asked for once, first thing, and never again,
    whatever the user does and however the requests settle. *)
Theorem player_list_is_fetched_once (events : list Event) :
  exists later,
    output (run events) = Fetch GetPlayers :: later
    /\ ~ In (Fetch GetPlayers) later.
Proof.
  destruct (run_output events) as (new & E & R).
  exists new. split; [exact E | apply routine_not_players_fetch, R].
Qed.

(** No promise of the component is ever rejected with nobody to handle it:
    every failure of a request ends in one of the catch blocks. *)
Theorem no_rejection_goes_unhandled (events : list Event) (reason : Thrown) :
  ~ In (UnhandledRejection reason) (output (run events)).
Proof.
  destruct (run_output events) as (new & E & R).
  rewrite E. intros [H | H]; [discriminate H|].
  exact (routine_not_unhandled _ _ R H).
Qed.

(** Choosing the id that is already selected does nothing at all: no
    state cell changes and no log is fetched again. *)
Theorem reselecting_the_same_id_does_nothing (events : list Event) :
  step (run events) (SelectChange (selectedPlayerId (app (run events)))) = run events.
Proof.
  destruct (run_invariant events) as (St & _).
  unfold step, handle.
  assert (E : exec (onSelectChange (selectedPlayerId (app (run events)))) (run events)
              = run events).
  { destruct (run events) as [[ps sel sp acts text ld err] ref d pend out].
    reflexivity. }
  rewrite E. apply render_idle. exact St.
Qed.

(** Nothing stops a second submission while the first is in flight, and a
    submission changes neither the log nor the text: submitting twice in a
    row sends the same create request twice, turn number included. *)
Theorem submitting_twice_sends_the_same_request_twice (events : list Event) :
  selectedPlayerId (app (run events)) <> [] ->
  blank (newActionText (app (run events))) = false ->
  exists body,
    output (step (step (run events) SubmitForm) SubmitForm) =
      output (run events)
      ++ [PreventDefault; Fetch (PostAction body); PreventDefault; Fetch (PostAction body)]
    /\ map request_of (pending (step (step (run events) SubmitForm) SubmitForm)) =
         map request_of (pending (run events)) ++ [PostAction body; PostAction body]
    /\ new_turn_number body = (Z.of_nat (List.length (actions (app (run events)))) + 1)%Z.
Proof.
  intros Hs Hb.
  pose proof (run_invariant (events ++ [SubmitForm])) as Inv'.
  rewrite run_app in Inv'.
  destruct (run_invariant events) as (St & _).
  destruct (submit_sent _ St Hs Hb) as (k & E).
  rewrite E in Inv'. destruct Inv' as (St' & _).
  destruct (submit_sent _ St' Hs Hb) as (k' & E').
  exists {| new_player_id := selectedPlayerId (app (run events));
            new_action_text := newActionText (app (run events));
            new_turn_number := Z.of_nat (List.length (actions (app (run events)))) + 1 |}.
  rewrite E, E'. unfold suspend, emit. cbn [output pending app request_of].
  split; [|split; [|reflexivity]].
  - rewrite <- !app_assoc. reflexivity.
  - rewrite !map_app, <- !app_assoc. reflexivity.
Qed.

Lemma submitting_twice_witness :
  exists body,
    output (step (step (run (rogue_session ++ [TextChange (str "Sneak past")])) SubmitForm)
                 SubmitForm) =
      output (run (rogue_session ++ [TextChange (str "Sneak past")]))
      ++ [PreventDefault; Fetch (PostAction body); PreventDefault; Fetch (PostAction body)]
    /\ new_turn_number body = 2%Z.
Proof.
  edestruct (submitting_twice_sends_the_same_request_twice
               (rogue_session ++ [TextChange (str "Sneak past")]))
    as (body & Hout & _ & Hturn);
    [vm_compute; discriminate | vm_compute; reflexivity |].
  exists body. split; [exact Hout | rewrite Hturn; vm_compute; reflexivity].
Defined.

(** No request is ever cancelled: what the user does (selecting, typing,
    submitting) leaves every request in flight where it is, and at most
    adds one. *)
Theorem user_events_cancel_no_request (events : list Event) (e : Event) :
  user_event e = true ->
  exists new,
    pending (step (run events) e) = pending (run events) ++ new
    /\ (List.length new <= 1)%nat.
Proof.
  intros U.
  assert (R : forall m, exists new,
            pending (render m) = pending m ++ new
            /\ (List.length new <= 1)%nat
            /\ (stable m -> new = [])).
  { intros m. destruct (deps_eqb (current_deps m) (deps m)) eqn:D.
    - exists []. unfold render. rewrite D, app_nil_r. auto.
    - unfold render. rewrite D. unfold selectionEffect.
      assert (N : stable m -> False).
      { unfold stable. intros H. rewrite H in D.
        assert (T : deps_eqb (current_deps m) (current_deps m) = true)
          by (apply deps_eqb_true; reflexivity).
        congruence. }
      destruct (truthy (selectedPlayerId (app m))); simpl.
      + eexists [_]. split; [reflexivity|]. split; [simpl; lia | intros H; destruct (N H)].
      + exists []. rewrite app_nil_r. split; [reflexivity|].
        split; [simpl; lia | reflexivity]. }
  destruct (run_invariant events) as (St & _).
  unfold step.
  destruct e as [v | v | | i o | i o | i o]; try discriminate U; unfold handle.
  - destruct (R (exec (onSelectChange v) (run events))) as (new & E & L & _).
    exists new. split; [exact E | exact L].
  - destruct (R (exec (onTextChange v) (run events))) as (new & E & _ & N).
    rewrite E, (N St). exists []. split; [reflexivity | simpl; lia].
  - destruct (R (exec (handleSubmitAction (app (run events))) (run events)))
      as (new & E & _ & N).
    rewrite E. unfold handleSubmitAction in *. simpl in *.
    destruct (negb (truthy (selectedPlayerId (app (run events))))
              || negb (truthy (trim (newActionText (app (run events))))))%bool;
      simpl in *; rewrite (N St), app_nil_r.
    + exists []. rewrite app_nil_r. split; [reflexivity | simpl; lia].
    + eexists [_]. split; [reflexivity | simpl; lia].
Qed.

Lemma user_events_cancel_witness :
  exists new,
    pending (step (run (rogue_session ++ [SelectChange (str "p2")])) (SelectChange []))
      = pending (run (rogue_session ++ [SelectChange (str "p2")])) ++ new
    /\ (List.length new <= 1)%nat.
Proof.
  apply (user_events_cancel_no_request
           (rogue_session ++ [SelectChange (str "p2")]) (SelectChange [])).
  reflexivity.
Defined.

Lemma handle_meant (m : Machine) (e : Event) :
  Forall known (pending m) ->
  exists new, output (handle m e) = output m ++ new /\ Forall meant_output new.
Proof.
  intros K.
  assert (Same : exists new, output m = output m ++ new /\ Forall meant_output new).
  { exists []. rewrite app_nil_r. split; [reflexivity | constructor]. }
  destruct e as [v | v | | i o | i o | i o]; simpl; try exact Same.
  - rewrite truthy_trim.
    destruct (truthy (selectedPlayerId (app m))) eqn:Hs,
             (blank (newActionText (app m))) eqn:Hb;
      simpl; try (exists [PreventDefault]; split; [reflexivity | repeat constructor]).
    eexists [PreventDefault; _]. rewrite <- app_assoc. split; [reflexivity|].
    repeat constructor; simpl.
    + apply truthy_nonempty. exact Hs.
    + exact Hb.
    + lia.
  - destruct (nth_error (pending m) i) as [t|] eqn:Hn; [|exact Same].
    destruct (known_dropped _ _ _ Hn K) as [Kt Kd].
    destruct t; try exact Same. known_inv Kt.
    settle_cases o; exact Same.
  - destruct (nth_error (pending m) i) as [t|] eqn:Hn; [|exact Same].
    destruct (known_dropped _ _ _ Hn K) as [Kt Kd].
    destruct t; try exact Same. known_inv Kt.
    settle_cases o; try exact Same; eexists [_]; split; try reflexivity;
      repeat constructor.
  - destruct (nth_error (pending m) i) as [t|] eqn:Hn; [|exact Same].
    destruct (known_dropped _ _ _ Hn K) as [Kt Kd].
    destruct t; try exact Same. known_inv Kt.
    settle_cases o; try exact Same; eexists [_]; split; try reflexivity;
      repeat constructor; simpl; try (apply truthy_nonempty; assumption).
Qed.

Lemma render_meant (m : Machine) :
  exists new, output (render m) = output m ++ new /\ Forall meant_output new.
Proof.
  unfold render.
  destruct (deps_eqb (current_deps m) (deps m)).
  - exists []. rewrite app_nil_r. split; [reflexivity | constructor].
  - unfold selectionEffect.
    destruct (truthy (selectedPlayerId (app m))) eqn:T; simpl.
    + eexists [_]. split; [reflexivity|]. repeat constructor.
      simpl. apply truthy_nonempty. exact T.
    + exists []. rewrite app_nil_r. split; [reflexivity | constructor].
Qed.

Lemma run_meant (events : list Event) : Forall meant_output (output (run events)).
Proof.
  induction events as [|e events IH] using rev_ind.
  - repeat constructor.
  - rewrite run_app. unfold step.
    destruct (run_invariant events) as (_ & K & _).
    destruct (handle_meant (run events) e K) as (n1 & E1 & M1).
    destruct (render_meant (handle (run events) e)) as (n2 & E2 & M2).
    rewrite E2, E1. repeat (apply Forall_app; split); assumption.
Qed.

(** Every request the component ever sends is one it means to send: no
    action log is asked for the empty id, and no action is created for the
    empty id, with blank text, or with a turn number below 1. *)
Theorem only_meant_requests_are_sent (events : list Event) (req : Request) :
  In (Fetch req) (output (run events)) -> meant_request req.
Proof.
  intros H. pose proof (run_meant events) as M.
  rewrite Forall_forall in M. exact (M _ H).
Qed.

Lemma only_meant_requests_witness :
  meant_request
    (PostAction {| new_player_id := str "p1";
                   new_action_text := str "Pick the lock";
                   new_turn_number := 1 |}).
Proof.
  apply (only_meant_requests_are_sent
           [ PlayersSettled 0 (ok_with (JArray [rogue]));
             SelectChange (str "p1");
             ActionsSettled 0 (ok_with (JArray []));
             TextChange (str "Pick the lock");
             SubmitForm ]).
  vm_compute. do 3 right. left. reflexivity.
Defined.

(** ** The player list loads once *)

Local Arguments skipn : simpl never.

Lemma filter_dropped {A : Type} (f : A -> bool) (l : list A) (i : nat) (t : A) :
  nth_error l i = Some t ->
  List.length (filter f l) =
  (List.length (filter f (firstn i l ++ skipn (S i) l)) + (if f t then 1 else 0))%nat.
Proof.
  intros Hn. rewrite <- (firstn_skipn_middle i l Hn) at 1.
  rewrite !filter_app, !length_app. cbn [filter]. destruct (f t); cbn [List.length]; lia.
Qed.

Ltac count_tasks F :=
  simpl in F; rewrite ?filter_app, ?length_app in F;
  repeat split; auto;
  rewrite ?filter_app, ?length_app; simpl; lia.

Lemma handle_quiet (m : Machine) (e : Event) :
  Forall known (pending m) -> settles_players m e = false ->
  loading (app (handle m e)) = loading (app m)
  /\ players (app (handle m e)) = players (app m)
  /\ error (app (handle m e)) = error (app m)
  /\ players_in_flight (handle m e) = players_in_flight m.
Proof.
  intros K Q. unfold players_in_flight.
  destruct e as [v | v | | i o | i o | i o]; simpl in *; auto.
  - rewrite truthy_trim.
    destruct (truthy (selectedPlayerId (app m))), (blank (newActionText (app m)));
      simpl; auto.
    rewrite filter_app, length_app. simpl. repeat split; lia.
  - destruct (nth_error (pending m) i) as [t|] eqn:Hn; [|auto].
    destruct t; auto. discriminate Q.
  - destruct (nth_error (pending m) i) as [t|] eqn:Hn; [|auto].
    pose proof (filter_dropped is_players_task _ _ _ Hn) as F.
    destruct (known_dropped _ _ _ Hn K) as [Kt Kd].
    destruct t; auto. known_inv Kt.
    settle_cases o; count_tasks F.
  - destruct (nth_error (pending m) i) as [t|] eqn:Hn; [|auto].
    pose proof (filter_dropped is_players_task _ _ _ Hn) as F.
    destruct (known_dropped _ _ _ Hn K) as [Kt Kd].
    destruct t; auto. known_inv Kt.
    settle_cases o; count_tasks F.
Qed.

Lemma handle_settles (m : Machine) (e : Event) :
  Forall known (pending m) -> settles_players m e = true ->
  loading (app (handle m e)) = false
  /\ (players_in_flight (handle m e) + 1 = players_in_flight m)%nat.
Proof.
  intros K Q. unfold players_in_flight.
  destruct e as [v | v | | i o | i o | i o]; simpl in *; try discriminate Q.
  destruct (nth_error (pending m) i) as [t|] eqn:Hn; [|discriminate Q].
  pose proof (filter_dropped is_players_task _ _ _ Hn) as F.
  destruct (known_dropped _ _ _ Hn K) as [Kt Kd].
  destruct t; try discriminate Q. known_inv Kt.
  settle_cases o; count_tasks F.
Qed.

Lemma render_quiet (m : Machine) :
  loading (app (render m)) = loading (app m)
  /\ players (app (render m)) = players (app m)
  /\ error (app (render m)) = error (app m)
  /\ players_in_flight (render m) = players_in_flight m.
Proof.
  unfold render, players_in_flight.
  destruct (deps_eqb (current_deps m) (deps m)); [auto|].
  unfold selectionEffect.
  destruct (truthy (selectedPlayerId (app m))); simpl; auto.
  rewrite filter_app, length_app. simpl. repeat split; lia.
Qed.

Lemma step_quiet (m : Machine) (e : Event) :
  Forall known (pending m) -> settles_players m e = false ->
  loading (app (step m e)) = loading (app m)
  /\ players (app (step m e)) = players (app m)
  /\ error (app (step m e)) = error (app m)
  /\ players_in_flight (step m e) = players_in_flight m.
Proof.
  intros K Q. unfold step.
  destruct (handle_quiet m e K Q) as (H1 & H2 & H3 & H4).
  destruct (render_quiet (handle m e)) as (R1 & R2 & R3 & R4).
  repeat split; congruence.
Qed.

Lemma none_in_flight_none_settles (m : Machine) (e : Event) :
  players_in_flight m = 0%nat -> settles_players m e = false.
Proof.
  unfold players_in_flight. intros Z.
  destruct e as [v | v | | i o | i o | i o]; simpl; try reflexivity.
  destruct (nth_error (pending m) i) as [t|] eqn:Hn; [|reflexivity].
  destruct (is_players_task t) eqn:P; [|reflexivity].
  pose proof (filter_dropped is_players_task _ _ _ Hn) as F.
  rewrite P in F. lia.
Qed.

Lemma step_load_phase (m : Machine) (e : Event) :
  Forall known (pending m) -> load_phase m -> load_phase (step m e).
Proof.
  intros K L.
  destruct (settles_players m e) eqn:Q.
  - destruct (handle_settles m e K Q) as (H1 & H2).
    destruct (render_quiet (handle m e)) as (R1 & _ & _ & R4).
    unfold step. right. rewrite R1, R4.
    destruct L as [(C & _) | (C & _)]; split; try assumption; lia.
  - destruct (step_quiet m e K Q) as (S1 & S2 & S3 & S4).
    destruct L as [(C & L1 & L2 & L3) | (C & L1)]; [left | right];
      repeat split; congruence.
Qed.

Lemma run_load_phase (events : list Event) : load_phase (run events).
Proof.
  induction events as [|e events IH] using rev_ind.
  - left. repeat split.
  - rewrite run_app. apply step_load_phase; [apply run_invariant | exact IH].
Qed.

Lemma players_task_in_flight (l : list Task) :
  In GetPlayers (map request_of l) <-> (1 <= List.length (filter is_players_task l))%nat.
Proof.
  induction l as [|t l IH]; simpl.
  - split; [intros [] | lia].
  - destruct t; simpl; split; intros H; try lia; auto.
    + destruct H as [H | H]; [discriminate H | apply IH; exact H].
    + right. apply IH. exact H.
    + destruct H as [H | H]; [discriminate H | apply IH; exact H].
    + right. apply IH. exact H.
Qed.

(** The select is disabled exactly while the request for the player list
    is in flight. *)
Theorem select_is_disabled_exactly_while_the_list_loads (events : list Event) :
  select_disabled (view (app (run events))) = true
  <-> In GetPlayers (map request_of (pending (run events))).
Proof.
  rewrite players_task_in_flight. fold (players_in_flight (run events)).
  simpl. destruct (run_load_phase events) as [(C & L & _) | (C & L)];
    rewrite C, L; split; intros H; try reflexivity; try discriminate H; lia.
Qed.

Lemma loaded_stays_loaded (events later : list Event) :
  players_in_flight (run events) = 0%nat ->
  players_in_flight (run (events ++ later)) = 0%nat
  /\ loading (app (run (events ++ later))) = loading (app (run events))
  /\ players (app (run (events ++ later))) = players (app (run events))
  /\ error (app (run (events ++ later))) = error (app (run events)).
Proof.
  intros Z. induction later as [|e later (C & L & P & E)] using rev_ind.
  - rewrite app_nil_r. auto.
  - rewrite app_assoc, run_app.
    destruct (run_invariant (events ++ later)) as (_ & K & _).
    destruct (step_quiet _ e K (none_in_flight_none_settles _ e C)) as (S1 & S2 & S3 & S4).
    repeat split; congruence.
Qed.

(** Once the player list has stopped loading, it is settled for the rest
    of the session: whatever happens later, the list, the error message and
    the loading flag stay as they are.  The list is never refreshed. *)
Theorem player_list_never_changes_once_loaded (events later : list Event) :
  loading (app (run events)) = false ->
  players (app (run (events ++ later))) = players (app (run events))
  /\ error (app (run (events ++ later))) = error (app (run events))
  /\ loading (app (run (events ++ later))) = false.
Proof.
  intros L.
  destruct (run_load_phase events) as [(_ & L' & _) | (C & _)]; [congruence|].
  destruct (loaded_stays_loaded events later C) as (_ & H1 & H2 & H3).
  repeat split; congruence.
Qed.

Lemma player_list_never_changes_witness :
  players (app (run (rogue_session ++ [SelectChange (str "p2"); TextChange (str "x")])))
    = [rogue; bard].
Proof.
  destruct (player_list_never_changes_once_loaded
              rogue_session [SelectChange (str "p2"); TextChange (str "x")])
    as (Hp & _); [vm_compute; reflexivity|].
  rewrite Hp. vm_compute. reflexivity.
Defined.

(** An error message, once stored, is there to stay: nothing ever clears
    or replaces it. *)
Theorem error_message_is_never_cleared
    (events later : list Event) (message : jsstring) :
  error (app (run events)) = Some message ->
  error (app (run (events ++ later))) = Some message.
Proof.
  intros E.
  destruct (run_load_phase events) as [(_ & _ & _ & E') | (C & _)]; [congruence|].
  destruct (loaded_stays_loaded events later C) as (_ & _ & _ & H).
  congruence.
Qed.

Lemma error_message_is_never_cleared_witness :
  error (app (run ([PlayersSettled 0 (Rejected (ErrorObject (str "Failed to fetch")))]
                   ++ [SelectChange (str "p1"); SelectChange []])))
    = Some (str "Failed to fetch").
Proof.
  apply (error_message_is_never_cleared
           [PlayersSettled 0 (Rejected (ErrorObject (str "Failed to fetch")))]
           [SelectChange (str "p1"); SelectChange []]).
  vm_compute. reflexivity.
Defined.

Lemma handle_error (m : Machine) (e : Event) :
  Forall known (pending m) ->
  error (app (handle m e)) = error (app m)
  \/ exists i o,
       e = PlayersSettled i o
       /\ ((request_failed o = true
            /\ error (app (handle m e)) =
               Some (message_or (thrown_by o (str "Failed to fetch players"))
                                (str "Unknown error")))
           \/ exists reason,
                o = Fulfilled (mkResponse true (inl reason))
                /\ error (app (handle m e)) =
                   Some (message_or reason (str "Unknown error"))).
Proof.
  intros K.
  destruct (settles_players m e) eqn:Q.
  - destruct e as [v | v | | i o | i o | i o]; simpl in *; try discriminate Q.
    destruct (nth_error (pending m) i) as [t|] eqn:Hn; [|discriminate Q].
    destruct (known_dropped _ _ _ Hn K) as [Kt Kd].
    destruct t; try discriminate Q. known_inv Kt.
    settle_cases o; auto; right; do 2 eexists; (split; [reflexivity|]);
      try (left; split; reflexivity).
    right. eexists. split; reflexivity.
  - left. apply (handle_quiet m e K Q).
Qed.

(** Only the player-list fetch ever stores an error message: when a
    message is stored, an answer to the player-list request failed (or
    could not be parsed), and the message is the one of that failure.  A
    failed log fetch or a failed submission stores none. *)
Theorem error_message_comes_from_the_player_list
    (events : list Event) (message : jsstring) :
  error (app (run events)) = Some message ->
  exists i o,
    In (PlayersSettled i o) events
    /\ ((request_failed o = true
         /\ message = message_or (thrown_by o (str "Failed to fetch players"))
                                 (str "Unknown error"))
        \/ exists reason,
             o = Fulfilled (mkResponse true (inl reason))
             /\ message = message_or reason (str "Unknown error")).
Proof.
  induction events as [|e events IH] using rev_ind.
  - discriminate.
  - rewrite run_app. unfold step.
    destruct (render_quiet (handle (run events) e)) as (_ & _ & R & _). rewrite R.
    destruct (run_invariant events) as (_ & K & _).
    destruct (handle_error (run events) e K) as [H | (i & o & He & H)].
    + rewrite H. intros E. destruct (IH E) as (i & o & Hin & Hw).
      exists i, o. split; [apply in_or_app; left; exact Hin | exact Hw].
    + intros E. exists i, o. split; [apply in_or_app; right; left; exact He|].
      destruct H as [(Hf & H) | (reason & Ho & H)]; rewrite H in E; inversion E.
      * left. split; [exact Hf | reflexivity].
      * right. exists reason. split; [exact Ho | reflexivity].
Qed.

Lemma error_message_comes_from_witness :
  exists i o,
    In (PlayersSettled i o)
       [PlayersSettled 0 (Fulfilled (mkResponse false (inr JNull))); SelectChange (str "p1");
        ActionsSettled 0 (Rejected NonError)]
    /\ ((request_failed o = true
         /\ str "Failed to fetch players"
            = message_or (thrown_by o (str "Failed to fetch players")) (str "Unknown error"))
        \/ exists reason,
             o = Fulfilled (mkResponse true (inl reason))
             /\ str "Failed to fetch players" = message_or reason (str "Unknown error")).
Proof.
  apply (error_message_comes_from_the_player_list
           [PlayersSettled 0 (Fulfilled (mkResponse false (inr JNull))); SelectChange (str "p1");
            ActionsSettled 0 (Rejected NonError)]).
  vm_compute. reflexivity.
Defined.

(** When the player list answers, the new list is stored, the loading flag
    drops, and the selection effect runs again on the new list: the
    snapshot is looked up anew and, if an id is selected, its action log is
    fetched again; if none is, the log is emptied. *)
Theorem player_list_answer_reruns_the_selection
    (events : list Event) (i : nat) (k : Settled Player -> Async) (data : Json Player) :
  nth_error (pending (run events)) i = Some (TaskPlayers k) ->
  players (app (step (run events) (PlayersSettled i (ok_with data))))
    = (if Array_isArray data then elements data else [])
  /\ loading (app (step (run events) (PlayersSettled i (ok_with data)))) = false
  /\ selectedPlayer (app (step (run events) (PlayersSettled i (ok_with data))))
     = (if truthy (selectedPlayerId (app (run events)))
        then find_player (selectedPlayerId (app (run events)))
                         (if Array_isArray data then elements data else [])
        else None)
  /\ output (step (run events) (PlayersSettled i (ok_with data)))
     = output (run events)
       ++ (if truthy (selectedPlayerId (app (run events)))
           then [Fetch (GetActions (selectedPlayerId (app (run events))))]
           else [])
  /\ (selectedPlayerId (app (run events)) = [] ->
      actions (app (step (run events) (PlayersSettled i (ok_with data)))) = []).
Proof.
  intros Hn. pose proof (run_invariant events) as Inv.
  rewrite (players_settled_data _ _ _ data Inv Hn).
  destruct Inv as (St & _).
  match goal with |- context [render ?x] => set (m1 := x) end.
  assert (D : deps m1 <> current_deps m1).
  { unfold m1, current_deps. simpl. rewrite St. unfold current_deps.
    intros H. inversion H. lia. }
  destruct (render_selection m1) as (_ & Rp & _).
  destruct (render_error_loading m1) as (_ & Rl).
  destruct (render_fresh_players m1 D) as (Ra & Ro).
  rewrite Rp, Rl, Ro, Ra. unfold m1. simpl.
  repeat split.
  - destruct (truthy (selectedPlayerId (app (run events)))); reflexivity.
  - intros E. rewrite E. reflexivity.
Qed.

Lemma player_list_answer_witness :
  selectedPlayer
    (app (step (run [SelectChange (str "p2")])
               (PlayersSettled 0 (ok_with (JArray [rogue; bard])))))
    = Some bard
  /\ output (step (run [SelectChange (str "p2")])
                  (PlayersSettled 0 (ok_with (JArray [rogue; bard]))))
     = output (run [SelectChange (str "p2")]) ++ [Fetch (GetActions (str "p2"))].
Proof.
  edestruct (player_list_answer_reruns_the_selection [SelectChange (str "p2")] 0)
    with (data := JArray [rogue; bard]) as (_ & _ & Hs & Ho & _);
    [vm_compute; reflexivity|].
  split; [rewrite Hs | rewrite Ho]; vm_compute; reflexivity.
Defined.

(** A failed player-list fetch shows an error line unless its message is
    empty: the line is missing exactly when the fetch was rejected with an
    [Error] whose message is the empty string. *)
Theorem error_line_is_missing_only_for_an_empty_message
    (events : list Event) (i : nat) (k : Settled Player -> Async) (o : Settled Player) :
  nth_error (pending (run events)) i = Some (TaskPlayers k) ->
  request_failed o = true ->
  (error_line (view (app (step (run events) (PlayersSettled i o)))) = None
   <-> o = Rejected (ErrorObject [])).
Proof.
  intros Hn Hf.
  rewrite (players_settled_failure _ _ _ _ (run_invariant events) Hn Hf). simpl.
  destruct o as [[ok' j] | [message | ]]; simpl.
  - split; discriminate.
  - destruct message as [|c message]; simpl; split; congruence.
  - split; discriminate.
Qed.

Lemma error_line_witness :
  error_line (view (app (step (run []) (PlayersSettled 0 (Rejected (ErrorObject []))))))
    = None
  /\ error (app (step (run []) (PlayersSettled 0 (Rejected (ErrorObject []))))) = Some [].
Proof.
  split; [|vm_compute; reflexivity].
  edestruct (error_line_is_missing_only_for_an_empty_message [] 0)
    with (o := @Rejected Player (ErrorObject [])) as (_ & H);
    [vm_compute; reflexivity | reflexivity | exact (H eq_refl)].
Defined.

(** ** Runs the markup allows *)

Lemma all_enabled_app (m : Machine) (events : list Event) (e : Event) :
  all_enabled m (events ++ [e]) =
  (all_enabled m events && enabled (fold_left step events m) e)%bool.
Proof.
  revert m. induction events as [|e' events IH]; intros m; simpl.
  - rewrite andb_true_r. reflexivity.
  - rewrite IH, andb_assoc. reflexivity.
Qed.

Lemma step_selection (m : Machine) (e : Event) :
  Forall known (pending m) ->
  selectedPlayerId (app (step m e)) =
    match e with
    | SelectChange value => value
    | _ => selectedPlayerId (app m)
    end.
Proof.
  intros K. unfold step.
  destruct (render_selection (handle m e)) as (Rs & _).
  destruct (handle_footprint m e K) as (_ & _ & Fs & _).
  congruence.
Qed.

Lemma existsb_find {A : Type} (f : A -> bool) (l : list A) :
  existsb f l = true -> exists x, find f l = Some x.
Proof.
  induction l as [|a l IH]; simpl; [discriminate|].
  destruct (f a); [intros _; exists a; reflexivity | exact IH].
Qed.

Lemma offered_selection (events : list Event) :
  all_enabled mount events = true ->
  truthy (selectedPlayerId (app (run events))) = true ->
  players_in_flight (run events) = 0%nat
  /\ existsb (fun p => strict_eq (id p) (selectedPlayerId (app (run events))))
             (players (app (run events))) = true.
Proof.
  induction events as [|e events IH] using rev_ind.
  - discriminate.
  - rewrite all_enabled_app, run_app. intros A T.
    apply andb_true_iff in A. destruct A as [A En]. fold (run events) in En.
    destruct (run_invariant events) as (_ & K & _).
    rewrite (step_selection _ e K) in T |- *.
    assert (Z : players_in_flight (run events) = 0%nat
                /\ existsb (fun p => strict_eq (id p)
                                       match e with
                                       | SelectChange value => value
                                       | _ => selectedPlayerId (app (run events))
                                       end)
                           (players (app (run events))) = true).
    { destruct e as [v | v | | i o | i o | i o]; try exact (IH A T).
      simpl in En. apply andb_true_iff in En. destruct En as [L O].
      apply negb_true_iff in L. rewrite T in O. simpl in O.
      split; [|exact O].
      destruct (run_load_phase events) as [(_ & L' & _) | (C & _)]; [congruence | exact C]. }
    destruct Z as (C & O).
    destruct (step_quiet _ e K (none_in_flight_none_settles _ e C)) as (_ & S2 & _ & S4).
    rewrite S2, S4. split; assumption.
Qed.

(** Through the page as it is displayed, an id can only be selected from
    a list that has loaded, and the list never changes afterwards: so
    whenever an id is selected, the select is enabled and the stats, the
    log and the form of a player with that id are displayed. *)
Theorem a_selected_player_is_always_displayed (events : list Event) :
  all_enabled mount events = true ->
  selectedPlayerId (app (run events)) <> [] ->
  select_disabled (view (app (run events))) = false
  /\ exists p,
       selectedPlayer (app (run events)) = Some p
       /\ id p = selectedPlayerId (app (run events))
       /\ details (view (app (run events))) <> None.
Proof.
  intros A Hs. apply truthy_nonempty in Hs.
  destruct (offered_selection events A Hs) as (C & O).
  split.
  - simpl. destruct (run_load_phase events) as [(C' & _) | (_ & L)]; [lia | exact L].
  - destruct (existsb_find _ _ O) as (p & F).
    exists p. unfold view. simpl. rewrite (run_snapshot events), Hs.
    unfold find_player. rewrite F.
    apply find_some in F. destruct F as [_ Hid]. apply strict_eq_true in Hid.
    repeat split; [exact Hid | discriminate].
Qed.

Lemma a_selected_player_witness :
  select_disabled (view (app (run rogue_session))) = false
  /\ exists p,
       selectedPlayer (app (run rogue_session)) = Some p
       /\ id p = selectedPlayerId (app (run rogue_session))
       /\ details (view (app (run rogue_session))) <> None.
Proof.
  apply (a_selected_player_is_always_displayed rogue_session).
  - vm_compute. reflexivity.
  - vm_compute. discriminate.
Defined.

(** The user can do nothing before the player list has settled: in every
    run the page allows, the first event is the answer to the player-list
    request, and from then on the list is no longer loading. *)
Theorem nothing_happens_before_the_list_settles (events : list Event) :
  all_enabled mount events = true ->
  events = []
  \/ exists o rest,
       events = PlayersSettled 0 o :: rest
       /\ loading (app (run events)) = false.
Proof.
  destruct events as [|e rest]; [left; reflexivity|].
  simpl. intros A. apply andb_true_iff in A. destruct A as [En _].
  destruct (only_the_player_list_can_settle_after_mount e En) as (o & ->).
  right. exists o, rest. split; [reflexivity|].
  assert (L : loading (app (run [PlayersSettled 0 o])) = false).
  { destruct o as [[ok' [r | data]] | r];
      [destruct ok' | destruct ok'; [destruct data|] |]; reflexivity. }
  destruct (run_load_phase [PlayersSettled 0 o]) as [(_ & L' & _) | (C & _)];
    [congruence|].
  destruct (loaded_stays_loaded [PlayersSettled 0 o] rest C) as (_ & H & _).
  change (PlayersSettled 0 o :: rest) with ([PlayersSettled 0 o] ++ rest).
  congruence.
Qed.

Lemma nothing_happens_witness :
  rogue_session = []
  \/ exists o rest,
       rogue_session = PlayersSettled 0 o :: rest
       /\ loading (app (run rogue_session)) = false.
Proof.
  apply (nothing_happens_before_the_list_settles rogue_session).
  vm_compute. reflexivity.
Defined.

(** ** The theorems without a premise, on the sessions above *)

Lemma snapshot_follows_selection_witness :
  selectedPlayer (app (run racing_session)) = Some bard.
Proof.
  rewrite (snapshot_follows_selection racing_session). vm_compute. reflexivity.
Defined.

Lemma player_list_is_fetched_once_witness :
  exists later,
    output (run racing_session) = Fetch GetPlayers :: later
    /\ ~ In (Fetch GetPlayers) later.
Proof. exact (player_list_is_fetched_once racing_session). Defined.

Lemma no_rejection_goes_unhandled_witness :
  ~ In (UnhandledRejection NonError)
       (output (run (racing_session ++ [ActionsSettled 0 (Rejected NonError)]))).
Proof.
  exact (no_rejection_goes_unhandled
           (racing_session ++ [ActionsSettled 0 (Rejected NonError)]) NonError).
Defined.

Lemma reselecting_the_same_id_witness :
  step (run rogue_session) (SelectChange (str "p1")) = run rogue_session.
Proof. exact (reselecting_the_same_id_does_nothing rogue_session). Defined.

Lemma select_is_disabled_witness :
  In GetPlayers (map request_of (pending (run []))).
Proof.
  apply (proj1 (select_is_disabled_exactly_while_the_list_loads [])). reflexivity.
Defined.
